(** * Inventory ledger: entry / issue workflow and its storage layer

    A shallow embedding of
    - [client/src/frontend/server/backend/storage.ts]  (class [DatabaseStorage]),
    - [client/src/frontend/server/backend/routes.ts]   (the strict server),
    - [server/routes.ts]                               (the simple server),
    followed by the properties the specification states about them.

    Conventions of the model.
    - JavaScript strings are sequences of characters; case mapping and
      whitespace are given on the ASCII range only (the location
      vocabulary, racks [A1..] and bins [01..84], lives in that range),
      and a statement that depends on them is about ASCII strings
      ([Js.is_ascii]) or about validated racks and bins.
    - JavaScript numbers holding quantities are integers [Z].
      [DatabaseStorage] is the storage class over columns that hold any
      integer; [IntegerColumns] is the same class over the 32-bit
      integer columns of the store, which refuses a value out of range.
    - The relational store is a record of three tables, each a list of
      rows in insertion order, together with the wall clock that
      [new Date()] and the column defaults read.
    - An [async] method is a state transformer over the store that either
      yields a value or throws. *)

From Stdlib Require Import ZArith Ascii List Bool Lia.
From stdpp Require Import base list sorting strings.

Local Open Scope Z_scope.

(** ** JavaScript string primitives used by the sources *)

Module Js.

Definition is_lower (c : ascii) : bool :=
  let n := nat_of_ascii c in (97 <=? n)%nat && (n <=? 122)%nat.

Definition is_upper (c : ascii) : bool :=
  let n := nat_of_ascii c in (65 <=? n)%nat && (n <=? 90)%nat.

Definition upcase (c : ascii) : ascii :=
  if is_lower c then ascii_of_nat (nat_of_ascii c - 32) else c.

Definition downcase (c : ascii) : ascii :=
  if is_upper c then ascii_of_nat (nat_of_ascii c + 32) else c.

Fixpoint map_chars (f : ascii -> ascii) (s : string) : string :=
  match s with
  | EmptyString => EmptyString
  | String c s' => String (f c) (map_chars f s')
  end.

(** [s.toUpperCase()] and [s.toLowerCase()] on ASCII strings; SQL
    [lower(s)] is the same function on these strings.  Characters
    outside the ASCII range are left as they are, which is not what
    JavaScript does: statements about case are for ASCII strings. *)
Definition toUpperCase : string -> string := map_chars upcase.
Definition toLowerCase : string -> string := map_chars downcase.

(** [s.startsWith(p)] *)
Fixpoint startsWith (s p : string) {struct p} : bool :=
  match p, s with
  | EmptyString, _ => true
  | String _ _, EmptyString => false
  | String a p', String b s' => Ascii.eqb a b && startsWith s' p'
  end.

(** [s.includes(p)] *)
Fixpoint includes (s p : string) : bool :=
  startsWith s p ||
  match s with
  | EmptyString => false
  | String _ s' => includes s' p
  end.

Fixpoint drop (n : nat) (s : string) : string :=
  match n, s with
  | O, _ => s
  | S _, EmptyString => EmptyString
  | S n', String _ s' => drop n' s'
  end.

(** [s.replace(p, r)] for a string pattern: the first occurrence only. *)
Fixpoint replace (p r s : string) : string :=
  if startsWith s p then r +:+ drop (String.length p) s
  else match s with
       | EmptyString => EmptyString
       | String c s' => String c (replace p r s')
       end.

(** [s.split(sep)] for a separator of one character, the only kind the
    sources use.  The result is never empty. *)
Fixpoint split (sep : ascii) (s : string) : list string :=
  match s with
  | EmptyString => [EmptyString]
  | String c s' =>
      if Ascii.eqb c sep then EmptyString :: split sep s'
      else match split sep s' with
           | [] => [String c EmptyString]
           | p :: ps => String c p :: ps
           end
  end.

Definition is_space (c : ascii) : bool :=
  let n := nat_of_ascii c in
  ((9 <=? n)%nat && (n <=? 13)%nat) || (n =? 32)%nat.

Fixpoint trimStart (s : string) : string :=
  match s with
  | EmptyString => EmptyString
  | String c s' => if is_space c then trimStart s' else s
  end.

Fixpoint trimEnd (s : string) : string :=
  match s with
  | EmptyString => EmptyString
  | String c s' =>
      match trimEnd s' with
      | EmptyString => if is_space c then EmptyString else String c EmptyString
      | t => String c t
      end
  end.

(** [s.trim()] on ASCII strings: the white space of that range. *)
Definition trim (s : string) : string := trimEnd (trimStart s).

(** Truthiness of a string: [if (s)] holds for the non-empty ones. *)
Definition truthy (s : string) : bool :=
  match s with EmptyString => false | _ => true end.

(** Occurrence of a character, used to say "contains no hyphen". *)
Fixpoint has_char (c : ascii) (s : string) : bool :=
  match s with
  | EmptyString => false
  | String a s' => Ascii.eqb a c || has_char c s'
  end.

(** The strings on which the functions above are those of JavaScript. *)
Definition is_ascii_char (c : ascii) : bool := (nat_of_ascii c <? 128)%nat.

Fixpoint is_ascii (s : string) : bool :=
  match s with
  | EmptyString => true
  | String c s' => is_ascii_char c && is_ascii s'
  end.

Definition is_digit (c : ascii) : bool :=
  let n := nat_of_ascii c in (48 <=? n)%nat && (n <=? 57)%nat.

Definition is_letter (c : ascii) : bool := is_upper c || is_lower c.

End Js.

(** ** SQL pattern matching

    [s LIKE p]: [%] matches any run of characters, [_] any one character,
    a backslash makes the next pattern character literal.  PostgreSQL
    rejects a pattern that ends in a lone backslash; the patterns built
    below always end in [%], so that case never arises (it matches
    nothing here). *)

Fixpoint like (p : string) : string -> bool :=
  match p with
  | EmptyString => fun s => negb (Js.truthy s)
  | String c p' =>
      if Ascii.eqb c "%" then
        fix any (s : string) : bool :=
          like p' s ||
          match s with
          | EmptyString => false
          | String _ s' => any s'
          end
      else if Ascii.eqb c "_" then
        fun s => match s with
                 | EmptyString => false
                 | String _ s' => like p' s'
                 end
      else if Ascii.eqb c "\" then
        match p' with
        | EmptyString => fun _ => false
        | String d p'' =>
            fun s => match s with
                     | EmptyString => false
                     | String a s' => Ascii.eqb a d && like p'' s'
                     end
        end
      else
        fun s => match s with
                 | EmptyString => false
                 | String a s' => Ascii.eqb a c && like p' s'
                 end
  end.

(** ** Data model

    The shared schema module that declares the tables and their row
    types is not among the sources; the records below follow the data
    model of the specification and the columns the sources read and
    write.  Serial row identifiers are left out. *)

Module Material.
(** Modelled from the spec: the [materials] table of the shared schema
    (not among the sources); [lastUpdated] is set on every mutation. *)
Record t := mk {
  code : string;
  quantity : Z;
  rack : string;
  bin : string;
  lastUpdated : Z
}.
End Material.

(** [InsertMaterial]: the columns a caller supplies on insertion. *)
Module InsertMaterial.
Record t := mk {
  code : string;
  quantity : Z;
  rack : string;
  bin : string
}.
End InsertMaterial.

(** [Partial<InsertMaterial>]: every column optional. *)
Module MaterialUpdates.
Record t := mk {
  code : option string;
  quantity : option Z;
  rack : option string;
  bin : option string
}.
End MaterialUpdates.

(** The [action] column of a log: ["entry"] or ["issue"]. *)
Inductive action := entry | issue.

Module InsertLog.
Record t := mk {
  materialCode : string;
  action : action;
  quantity : Z;
  rack : string;
  bin : string;
  enteredBy : option string;
  issuedBy : option string;
  userId : option string
}.
End InsertLog.

Module Log.
(** Modelled from the spec: the [logs] table of the shared schema (not
    among the sources); [timestamp] is the creation time. *)
Record t := mk {
  materialCode : string;
  action : action;
  quantity : Z;
  rack : string;
  bin : string;
  enteredBy : option string;
  issuedBy : option string;
  userId : option string;
  balanceQty : Z;
  timestamp : Z
}.
End Log.

Module InsertBinTransaction.
Record t := mk {
  materialCode : string;
  binLocation : string;
  receivedQty : Z;
  issuedQty : Z;
  balanceQty : Z;
  personName : option string
}.
End InsertBinTransaction.

Module BinTransaction.
(** Modelled from the spec: the [binTransactions] table of the shared
    schema (not among the sources); [createdAt] is the creation time. *)
Record t := mk {
  materialCode : string;
  binLocation : string;
  receivedQty : Z;
  issuedQty : Z;
  balanceQty : Z;
  personName : option string;
  createdAt : Z
}.
End BinTransaction.

(** The store: the tables [materials], [logs], [binTransactions] and the
    clock read by [new Date()] and by the timestamp defaults. *)
Record Db := mkDb {
  materials : list Material.t;
  logs : list Log.t;
  binTransactions : list BinTransaction.t;
  clock : Z
}.

Definition emptyDb (t0 : Z) : Db := mkDb [] [] [] t0.

(** ** Promises over the store *)

Inductive error :=
| TypeError (msg : string)
| DatabaseError (msg : string).

Inductive outcome (A : Type) :=
| Fulfilled (a : A)
| Rejected (e : error).
Arguments Fulfilled {A} a.
Arguments Rejected {A} e.

Definition Async (S A : Type) : Type := S -> outcome A * S.

Definition resolve {S A} (a : A) : Async S A := fun s => (Fulfilled a, s).

Definition throw {S A} (e : error) : Async S A := fun s => (Rejected e, s).

Definition await {S A B} (m : Async S A) (k : A -> Async S B) : Async S B :=
  fun s =>
    match m s with
    | (Fulfilled a, s') => k a s'
    | (Rejected e, s') => (Rejected e, s')
    end.

Definition read {S A} (f : S -> A) : Async S A := fun s => (Fulfilled (f s), s).

Definition write {S} (f : S -> S) : Async S unit := fun s => (Fulfilled tt, f s).

Notation "'let*' x := m 'in' k" := (await m (fun x => k))
  (at level 10, x name, m at level 100, k at level 200, only parsing).
Notation "m ;;; k" := (await m (fun _ => k))
  (at level 100, k at level 200, right associativity, only parsing).

(** ** The storage interface ([interface IStorage])

    [updateMaterial] is declared to return a [Material]; its
    implementation returns the first updated row, which is [undefined]
    when no row has the code, hence the [option].  [getDashboardStats]
    needs the calendar and is given apart, in [Dashboard]. *)

Class IStorage (S : Type) := {
  getMaterials : option string -> Async S (list Material.t);
  getMaterialByCode : string -> Async S (option Material.t);
  createMaterial : InsertMaterial.t -> Async S Material.t;
  updateMaterial : string -> MaterialUpdates.t -> Async S (option Material.t);
  deleteMaterial : string -> Async S unit;
  resetInventory : Async S unit;
  createLog : InsertLog.t -> Async S Log.t;
  getLogs : option nat -> Async S (list Log.t);
  clearLogs : Async S unit;
  createBinTransaction : InsertBinTransaction.t -> Async S BinTransaction.t;
  getBinTransactions : string -> Async S (list BinTransaction.t)
}.

(** ** [class DatabaseStorage implements IStorage] *)

Module DatabaseStorage.

(** [orderBy(desc(materials.lastUpdated))]: a stable sort, newest first. *)
Definition newer_first (a b : Material.t) : Prop :=
  Material.lastUpdated b <= Material.lastUpdated a.

#[global] Instance newer_first_dec a b : Decision (newer_first a b).
Proof. unfold newer_first. apply _. Defined.

Definition orderByLastUpdatedDesc : list Material.t -> list Material.t :=
  merge_sort newer_first.

Definition log_newer_first (a b : Log.t) : Prop :=
  Log.timestamp b <= Log.timestamp a.

#[global] Instance log_newer_first_dec a b : Decision (log_newer_first a b).
Proof. unfold log_newer_first. apply _. Defined.

Definition tx_newer_first (a b : BinTransaction.t) : Prop :=
  BinTransaction.createdAt b <= BinTransaction.createdAt a.

#[global] Instance tx_newer_first_dec a b : Decision (tx_newer_first a b).
Proof. unfold tx_newer_first. apply _. Defined.

(** [parts[i]] *)
Definition part (parts : list string) (i : nat) : option string := parts !! i.

(** The [where] clause of the rack-and-bin search. *)
Definition rack_bin_is (rackVal binVal : string) (m : Material.t) : Prop :=
  Js.toLowerCase (Material.rack m) = rackVal /\
  Js.toLowerCase (Material.bin m) = binVal.

(** The [where] clause of the rack-prefix search. *)
Definition rack_like (pattern : string) (m : Material.t) : Prop :=
  like pattern (Js.toLowerCase (Material.rack m)) = true.

(** The [where] clause of the free-text search. *)
Definition any_like (searchPattern : string) (m : Material.t) : Prop :=
  let p := Js.toLowerCase searchPattern in
  like p (Js.toLowerCase (Material.code m)) = true \/
  like p (Js.toLowerCase (Material.rack m)) = true \/
  like p (Js.toLowerCase (Material.bin m)) = true \/
  like p (Js.toLowerCase (Material.rack m +:+ "-" +:+ Material.bin m)) = true.

#[global] Instance rack_bin_is_dec r b m : Decision (rack_bin_is r b m).
Proof. unfold rack_bin_is. apply _. Defined.

#[global] Instance rack_like_dec p m : Decision (rack_like p m).
Proof. unfold rack_like. apply _. Defined.

#[global] Instance any_like_dec p m : Decision (any_like p m).
Proof. unfold any_like. apply _. Defined.

Definition getMaterials (search : option string) : Async Db (list Material.t) :=
  match search with
  | Some search =>
      if Js.truthy search then
        if Js.includes search "rack:" && Js.includes search "bin:" then
          let parts := Js.split "-" search in
          match part parts 0, part parts 1 with
          | Some p0, Some p1 =>
              let rackVal := Js.toLowerCase (Js.trim (Js.replace "rack:" "" p0)) in
              let binVal := Js.toLowerCase (Js.trim (Js.replace "bin:" "" p1)) in
              read (fun db =>
                orderByLastUpdatedDesc
                  (filter (rack_bin_is rackVal binVal) (materials db)))
          | _, _ =>
              throw (TypeError "Cannot read properties of undefined (reading 'replace')")
          end
        else if Js.startsWith search "rack:" then
          match part (Js.split ":" search) 1 with
          | Some v =>
              let rackVal := Js.toLowerCase (Js.trim v) in
              let pattern := rackVal +:+ "%" in
              read (fun db =>
                orderByLastUpdatedDesc
                  (filter (rack_like pattern) (materials db)))
          | None =>
              throw (TypeError "Cannot read properties of undefined (reading 'trim')")
          end
        else
          (* no [orderBy]: the order of the rows is the store's own *)
          let searchPattern := "%" +:+ search +:+ "%" in
          read (fun db => filter (any_like searchPattern) (materials db))
      else
        read (fun db => orderByLastUpdatedDesc (materials db))
  | None =>
      read (fun db => orderByLastUpdatedDesc (materials db))
  end.

Definition has_code (c : string) (m : Material.t) : Prop := Material.code m = c.

#[global] Instance has_code_dec c m : Decision (has_code c m).
Proof. unfold has_code. apply _. Defined.

Definition getMaterialByCode (c : string) : Async Db (option Material.t) :=
  read (fun db => head (filter (has_code c) (materials db))).

Definition set_materials (f : list Material.t -> list Material.t) (db : Db) : Db :=
  mkDb (f (materials db)) (logs db) (binTransactions db) (clock db).

Definition set_logs (f : list Log.t -> list Log.t) (db : Db) : Db :=
  mkDb (materials db) (f (logs db)) (binTransactions db) (clock db).

Definition set_binTransactions
    (f : list BinTransaction.t -> list BinTransaction.t) (db : Db) : Db :=
  mkDb (materials db) (logs db) (f (binTransactions db)) (clock db).

Definition createMaterial (insertMaterial : InsertMaterial.t) : Async Db Material.t :=
  let* now := read clock in
  let material :=
    Material.mk (InsertMaterial.code insertMaterial)
                (InsertMaterial.quantity insertMaterial)
                (InsertMaterial.rack insertMaterial)
                (InsertMaterial.bin insertMaterial)
                now in
  write (set_materials (fun rows => rows ++ [material])) ;;;
  resolve material.

(** [.set({ ...updates, lastUpdated: new Date() })] on one row. *)
Definition set_columns (updates : MaterialUpdates.t) (now : Z) (m : Material.t)
    : Material.t :=
  Material.mk (default (Material.code m) (MaterialUpdates.code updates))
              (default (Material.quantity m) (MaterialUpdates.quantity updates))
              (default (Material.rack m) (MaterialUpdates.rack updates))
              (default (Material.bin m) (MaterialUpdates.bin updates))
              now.

(** [update(materials).set(...).where(eq(materials.code, c))] on one row. *)
Definition update_where (c : string) (updates : MaterialUpdates.t) (now : Z)
    (m : Material.t) : Material.t :=
  if decide (has_code c m) then set_columns updates now m else m.

Definition updateMaterial (c : string) (updates : MaterialUpdates.t)
    : Async Db (option Material.t) :=
  let* now := read clock in
  let* returning :=
    read (fun db => set_columns updates now <$> filter (has_code c) (materials db)) in
  write (set_materials (fmap (update_where c updates now))) ;;;
  resolve (head returning).

Definition deleteMaterial (c : string) : Async Db unit :=
  write (set_materials (filter (fun m => ~ has_code c m))).

(** [.set({ quantity: 0, lastUpdated: new Date() })] on one row. *)
Definition zeroed (now : Z) (m : Material.t) : Material.t :=
  Material.mk (Material.code m) 0 (Material.rack m) (Material.bin m) now.

Definition resetInventory : Async Db unit :=
  let* now := read clock in
  write (set_materials (fmap (zeroed now))).

Definition createLog (insertLog : InsertLog.t) : Async Db Log.t :=
  let* material := getMaterialByCode (InsertLog.materialCode insertLog) in
  let balanceQty :=
    match material with
    | Some material => Material.quantity material
    | None => 0
    end in
  let* now := read clock in
  let log :=
    Log.mk (InsertLog.materialCode insertLog) (InsertLog.action insertLog)
           (InsertLog.quantity insertLog) (InsertLog.rack insertLog)
           (InsertLog.bin insertLog) (InsertLog.enteredBy insertLog)
           (InsertLog.issuedBy insertLog) (InsertLog.userId insertLog)
           balanceQty now in
  write (set_logs (fun rows => rows ++ [log])) ;;;
  resolve log.

Definition getLogs (limit : option nat) : Async Db (list Log.t) :=
  let limit := default 50%nat limit in
  read (fun db => take limit (merge_sort log_newer_first (logs db))).

Definition clearLogs : Async Db unit :=
  write (set_logs (fun _ => [])).

Definition createBinTransaction (transaction : InsertBinTransaction.t)
    : Async Db BinTransaction.t :=
  let* now := read clock in
  let newTransaction :=
    BinTransaction.mk (InsertBinTransaction.materialCode transaction)
                      (InsertBinTransaction.binLocation transaction)
                      (InsertBinTransaction.receivedQty transaction)
                      (InsertBinTransaction.issuedQty transaction)
                      (InsertBinTransaction.balanceQty transaction)
                      (InsertBinTransaction.personName transaction)
                      now in
  write (set_binTransactions (fun rows => rows ++ [newTransaction])) ;;;
  resolve newTransaction.

Definition getBinTransactions (materialCode : string)
    : Async Db (list BinTransaction.t) :=
  read (fun db =>
    merge_sort tx_newer_first
      (filter (fun t => BinTransaction.materialCode t = materialCode)
              (binTransactions db))).

End DatabaseStorage.

#[global] Instance storage : IStorage Db := {
  getMaterials := DatabaseStorage.getMaterials;
  getMaterialByCode := DatabaseStorage.getMaterialByCode;
  createMaterial := DatabaseStorage.createMaterial;
  updateMaterial := DatabaseStorage.updateMaterial;
  deleteMaterial := DatabaseStorage.deleteMaterial;
  resetInventory := DatabaseStorage.resetInventory;
  createLog := DatabaseStorage.createLog;
  getLogs := DatabaseStorage.getLogs;
  clearLogs := DatabaseStorage.clearLogs;
  createBinTransaction := DatabaseStorage.createBinTransaction;
  getBinTransactions := DatabaseStorage.getBinTransactions
}.

(** ** The storage class over 32-bit integer columns

    The quantity columns are integer columns of the relational store.
    A statement that writes a value outside their range is refused by
    the store, and the method that issued it throws. *)

Module IntegerColumns.

Definition integer_max : Z := 2147483647.

Definition integer_min : Z := -2147483648.

(** Modelled from the spec: the quantities are integer columns (the
    schema is not among the sources); the store holds them in 32 bits. *)
Definition fits (q : Z) : bool := (integer_min <=? q) && (q <=? integer_max).

Definition out_of_range : error := DatabaseError "integer out of range".

Definition createMaterial (insertMaterial : InsertMaterial.t) : Async Db Material.t :=
  if fits (InsertMaterial.quantity insertMaterial)
  then DatabaseStorage.createMaterial insertMaterial
  else throw out_of_range.

Definition updateMaterial (c : string) (updates : MaterialUpdates.t)
    : Async Db (option Material.t) :=
  match MaterialUpdates.quantity updates with
  | Some q =>
      if fits q then DatabaseStorage.updateMaterial c updates
      else throw out_of_range
  | None => DatabaseStorage.updateMaterial c updates
  end.

Definition createLog (insertLog : InsertLog.t) : Async Db Log.t :=
  let* material :=
    DatabaseStorage.getMaterialByCode (InsertLog.materialCode insertLog) in
  let balanceQty :=
    match material with
    | Some material => Material.quantity material
    | None => 0
    end in
  if fits (InsertLog.quantity insertLog) && fits balanceQty
  then DatabaseStorage.createLog insertLog
  else throw out_of_range.

Definition createBinTransaction (transaction : InsertBinTransaction.t)
    : Async Db BinTransaction.t :=
  if fits (InsertBinTransaction.receivedQty transaction)
     && fits (InsertBinTransaction.issuedQty transaction)
     && fits (InsertBinTransaction.balanceQty transaction)
  then DatabaseStorage.createBinTransaction transaction
  else throw out_of_range.

End IntegerColumns.

(** The storage object over the integer columns; the methods that write
    no quantity are those of [DatabaseStorage]. *)
Definition integer_storage : IStorage Db := {|
  getMaterials := DatabaseStorage.getMaterials;
  getMaterialByCode := DatabaseStorage.getMaterialByCode;
  createMaterial := IntegerColumns.createMaterial;
  updateMaterial := IntegerColumns.updateMaterial;
  deleteMaterial := DatabaseStorage.deleteMaterial;
  resetInventory := DatabaseStorage.resetInventory;
  createLog := IntegerColumns.createLog;
  getLogs := DatabaseStorage.getLogs;
  clearLogs := DatabaseStorage.clearLogs;
  createBinTransaction := IntegerColumns.createBinTransaction;
  getBinTransactions := DatabaseStorage.getBinTransactions
|}.

(** ** [DatabaseStorage.getDashboardStats]

    [startOfDay] comes from the date library and depends on the time
    zone of the server; it is a parameter here. *)

Module DashboardStats.
(** Modelled from the spec: the [DashboardStats] type of the shared schema
    (not among the sources), with the four fields the method fills. *)
Record t := mk {
  totalMaterials : nat;
  enteredToday : nat;
  issuedToday : nat;
  recentLogs : list Log.t
}.
End DashboardStats.

#[global] Instance action_eq_dec : EqDecision action.
Proof. solve_decision. Defined.

Module Dashboard.
Section Stats.
Variable startOfDay : Z -> Z.

(** [and(eq(logs.action, a), gte(logs.timestamp, today))] *)
Definition logged_since (a : action) (today : Z) (l : Log.t) : Prop :=
  Log.action l = a /\ today <= Log.timestamp l.

#[global] Instance logged_since_dec a today l : Decision (logged_since a today l).
Proof. unfold logged_since. apply _. Defined.

Definition getDashboardStats : Async Db DashboardStats.t :=
  let* now := read clock in
  let today := startOfDay now in
  let* totalMaterials := read (fun db => length (materials db)) in
  let* enteredToday :=
    read (fun db => length (filter (logged_since entry today) (logs db))) in
  let* issuedToday :=
    read (fun db => length (filter (logged_since issue today) (logs db))) in
  let* recentLogs := DatabaseStorage.getLogs (Some 10%nat) in
  resolve (DashboardStats.mk totalMaterials enteredToday issuedToday recentLogs).

End Stats.
End Dashboard.

(** ** Request bodies and their validation *)

Module EntryInput.
Record t := mk {
  materialCode : string;
  quantity : Z;
  rack : string;
  bin : string;
  enteredBy : option string
}.
End EntryInput.

Module IssueInput.
Record t := mk {
  materialCode : string;
  quantity : Z;
  rack : string;
  bin : string;
  issuedBy : option string
}.
End IssueInput.

(** Modelled from the spec: the location vocabulary.  A bin is a
    two-digit code. *)
Definition is_bin (s : string) : bool :=
  match s with
  | String a (String b EmptyString) => Js.is_digit a && Js.is_digit b
  | _ => false
  end.

Fixpoint all_digits (s : string) : bool :=
  match s with
  | EmptyString => true
  | String c s' => Js.is_digit c && all_digits s'
  end.

(** Modelled from the spec: the location vocabulary.  A rack is like
    [A1]: one or more letters followed by one or more digits. *)
Fixpoint is_rack (s : string) : bool :=
  match s with
  | EmptyString => false
  | String c s' =>
      Js.is_letter c && (is_rack s' || (Js.truthy s' && all_digits s'))
  end.

(** Modelled from the spec: the schemas [api.actions.entry.input] and
    [api.actions.issue.input] of the shared routes module are not among
    the sources.  Per the field validation rules, [materialCode] is a
    non-empty string, [quantity] a positive integer, [rack] and [bin]
    strings of the location vocabulary ([is_rack], [is_bin]); the first
    offending field is reported. *)
Definition check_fields (materialCode : string) (quantity : Z) (rack bin : string)
    : option string :=
  if negb (Js.truthy materialCode) then Some "materialCode"
  else if negb (0 <? quantity) then Some "quantity"
  else if negb (is_rack rack) then Some "rack"
  else if negb (is_bin bin) then Some "bin"
  else None.

(** Modelled from the spec: [api.actions.entry.input.parse], see
    [check_fields]; [inl] stands for the thrown [ZodError]. *)
Definition parse_entry (body : EntryInput.t) : string + EntryInput.t :=
  match check_fields (EntryInput.materialCode body) (EntryInput.quantity body)
                     (EntryInput.rack body) (EntryInput.bin body) with
  | Some field => inl field
  | None => inr body
  end.

(** Modelled from the spec: [api.actions.issue.input.parse], see
    [check_fields]; [inl] stands for the thrown [ZodError]. *)
Definition parse_issue (body : IssueInput.t) : string + IssueInput.t :=
  match check_fields (IssueInput.materialCode body) (IssueInput.quantity body)
                     (IssueInput.rack body) (IssueInput.bin body) with
  | Some field => inl field
  | None => inr body
  end.

(** ** Responses *)

Inductive response :=
| JsonMaterial (status : Z) (body : option Material.t)
| JsonMessage (status : Z) (message : string)
| JsonInvalid (field : string).

Definition status (r : response) : Z :=
  match r with
  | JsonMaterial s _ => s
  | JsonMessage s _ => s
  | JsonInvalid _ => 400
  end.

Definition NotFound : response := JsonMessage 404 "Material not found".

Definition InsufficientQuantity : response := JsonMessage 400 "Insufficient quantity".

Definition LocationMismatch (existing : Material.t) : response :=
  JsonMessage 400
    ("Material is not in the specified location. Current location: Rack " +:+
     Material.rack existing +:+ ", Bin " +:+ Material.bin existing).

(** [existing ? 200 : 201] *)
Definition created_or_updated (existing : option Material.t) : Z :=
  match existing with
  | Some _ => 200
  | None => 201
  end.

Definition undefined_quantity : error :=
  TypeError "Cannot read properties of undefined (reading 'quantity')".

(** ** The strict server: [client/src/frontend/server/backend/routes.ts] *)

Module StrictRoutes.
Section Routes.
Context {S : Type} `{IStorage S}.

Definition actions_entry (body : EntryInput.t) : Async S response :=
  match parse_entry body with
  | inl field => resolve (JsonInvalid field)
  | inr input =>
      let* existing := getMaterialByCode (EntryInput.materialCode input) in
      let* material :=
        match existing with
        | Some existing =>
            updateMaterial (EntryInput.materialCode input)
              (MaterialUpdates.mk None
                 (Some (Material.quantity existing + EntryInput.quantity input))
                 (Some (EntryInput.rack input))
                 (Some (EntryInput.bin input)))
        | None =>
            let* created :=
              createMaterial
                (InsertMaterial.mk (EntryInput.materialCode input)
                   (EntryInput.quantity input) (EntryInput.rack input)
                   (EntryInput.bin input)) in
            resolve (Some created)
        end in
      createLog
        (InsertLog.mk (EntryInput.materialCode input) entry
           (EntryInput.quantity input) (EntryInput.rack input)
           (EntryInput.bin input) (EntryInput.enteredBy input) None
           (Some "system")) ;;;
      match material with
      | None => throw undefined_quantity
      | Some m =>
          createBinTransaction
            (InsertBinTransaction.mk (EntryInput.materialCode input)
               (EntryInput.rack input +:+ "-" +:+ EntryInput.bin input)
               (EntryInput.quantity input) 0 (Material.quantity m)
               (EntryInput.enteredBy input)) ;;;
          resolve (JsonMaterial (created_or_updated existing) (Some m))
      end
  end.

Definition actions_issue (body : IssueInput.t) : Async S response :=
  match parse_issue body with
  | inl field => resolve (JsonInvalid field)
  | inr input =>
      let* existing := getMaterialByCode (IssueInput.materialCode input) in
      match existing with
      | None => resolve NotFound
      | Some existing =>
          if negb (String.eqb (Js.toUpperCase (Material.rack existing))
                              (Js.toUpperCase (IssueInput.rack input)))
             || negb (String.eqb (Material.bin existing) (IssueInput.bin input))
          then resolve (LocationMismatch existing)
          else if Material.quantity existing <? IssueInput.quantity input
          then resolve InsufficientQuantity
          else
            let* material :=
              updateMaterial (IssueInput.materialCode input)
                (MaterialUpdates.mk None
                   (Some (Material.quantity existing - IssueInput.quantity input))
                   None None) in
            createLog
              (InsertLog.mk (IssueInput.materialCode input) issue
                 (IssueInput.quantity input) (IssueInput.rack input)
                 (IssueInput.bin input) None (IssueInput.issuedBy input)
                 (Some "system")) ;;;
            match material with
            | None => throw undefined_quantity
            | Some m =>
                createBinTransaction
                  (InsertBinTransaction.mk (IssueInput.materialCode input)
                     (IssueInput.rack input +:+ "-" +:+ IssueInput.bin input)
                     0 (IssueInput.quantity input) (Material.quantity m)
                     (IssueInput.issuedBy input)) ;;;
                resolve (JsonMaterial 200 (Some m))
            end
      end
  end.

(** [GET api.materials.list]: answers 200 with the list. *)
Definition materials_list (search : option string) : Async S (list Material.t) :=
  getMaterials search.

(** [GET api.materials.get] *)
Definition materials_get (code : string) : Async S response :=
  let* material := getMaterialByCode code in
  match material with
  | None => resolve NotFound
  | Some material => resolve (JsonMaterial 200 (Some material))
  end.

(** [GET /api/materials/:code/transactions]: answers 200 with the list. *)
Definition materials_transactions (code : string)
    : Async S (list BinTransaction.t) :=
  getBinTransactions code.

(** [GET api.logs.list]: answers 200 with the list. *)
Definition logs_list : Async S (list Log.t) := getLogs None.

(** [DELETE api.materials.list/:code] *)
Definition materials_delete (code : string) : Async S response :=
  deleteMaterial code ;;;
  resolve (JsonMessage 200 "Material deleted").

(** [POST api.materials.list/reset] *)
Definition materials_reset : Async S response :=
  resetInventory ;;;
  resolve (JsonMessage 200 "Inventory reset").

(** [DELETE api.logs.list] *)
Definition logs_clear : Async S response :=
  clearLogs ;;;
  resolve (JsonMessage 200 "Logs cleared").

Definition seed : Async S unit :=
  let* existing := getMaterials None in
  if (length existing =? 0)%nat then
    createMaterial (InsertMaterial.mk "TRIM-001" 100 "A1" "01") ;;;
    createMaterial (InsertMaterial.mk "TRIM-002" 50 "B2" "15") ;;;
    createMaterial (InsertMaterial.mk "BUTTON-X" 500 "C1" "84") ;;;
    resolve tt
  else resolve tt.

End Routes.
End StrictRoutes.

(** ** The simple server: [server/routes.ts]

    Its routes are written against the storage interface, like the
    strict ones. *)

Module SimpleRoutes.
Section Routes.
Context {S : Type} `{IStorage S}.

Definition actions_entry (body : EntryInput.t) : Async S response :=
  match parse_entry body with
  | inl field => resolve (JsonInvalid field)
  | inr input =>
      let* existing := getMaterialByCode (EntryInput.materialCode input) in
      let* material :=
        match existing with
        | Some existing =>
            updateMaterial (EntryInput.materialCode input)
              (MaterialUpdates.mk None
                 (Some (Material.quantity existing + EntryInput.quantity input))
                 (Some (EntryInput.rack input))
                 (Some (EntryInput.bin input)))
        | None =>
            let* created :=
              createMaterial
                (InsertMaterial.mk (EntryInput.materialCode input)
                   (EntryInput.quantity input) (EntryInput.rack input)
                   (EntryInput.bin input)) in
            resolve (Some created)
        end in
      createLog
        (InsertLog.mk (EntryInput.materialCode input) entry
           (EntryInput.quantity input) (EntryInput.rack input)
           (EntryInput.bin input) None None (Some "system")) ;;;
      resolve (JsonMaterial (created_or_updated existing) material)
  end.

Definition actions_issue (body : IssueInput.t) : Async S response :=
  match parse_issue body with
  | inl field => resolve (JsonInvalid field)
  | inr input =>
      let* existing := getMaterialByCode (IssueInput.materialCode input) in
      match existing with
      | None => resolve NotFound
      | Some existing =>
          if Material.quantity existing <? IssueInput.quantity input
          then resolve InsufficientQuantity
          else
            let* material :=
              updateMaterial (IssueInput.materialCode input)
                (MaterialUpdates.mk None
                   (Some (Material.quantity existing - IssueInput.quantity input))
                   None None) in
            createLog
              (InsertLog.mk (IssueInput.materialCode input) issue
                 (IssueInput.quantity input) (IssueInput.rack input)
                 (IssueInput.bin input) None (IssueInput.issuedBy input)
                 (Some "system")) ;;;
            resolve (JsonMaterial 200 material)
      end
  end.

(** [GET api.materials.list]: answers 200 with the list. *)
Definition materials_list (search : option string) : Async S (list Material.t) :=
  getMaterials search.

(** [GET api.materials.get] *)
Definition materials_get (code : string) : Async S response :=
  let* material := getMaterialByCode code in
  match material with
  | None => resolve NotFound
  | Some material => resolve (JsonMaterial 200 (Some material))
  end.

(** [GET api.logs.list]: answers 200 with the list. *)
Definition logs_list : Async S (list Log.t) := getLogs None.

(** [DELETE api.materials.list/:code] *)
Definition materials_delete (code : string) : Async S response :=
  deleteMaterial code ;;;
  resolve (JsonMessage 200 "Material deleted").

(** [POST api.materials.list/reset] *)
Definition materials_reset : Async S response :=
  resetInventory ;;;
  resolve (JsonMessage 200 "Inventory reset").

(** [DELETE api.logs.list] *)
Definition logs_clear : Async S response :=
  clearLogs ;;;
  resolve (JsonMessage 200 "Logs cleared").

Definition seed : Async S unit :=
  let* existing := getMaterials None in
  if (length existing =? 0)%nat then
    createMaterial (InsertMaterial.mk "TRIM-001" 100 "A1" "01") ;;;
    createMaterial (InsertMaterial.mk "TRIM-002" 50 "B2" "15") ;;;
    createMaterial (InsertMaterial.mk "BUTTON-X" 500 "C1" "84") ;;;
    createLog (InsertLog.mk "TRIM-001" entry 100 "A1" "01" None None
                 (Some "system")) ;;;
    resolve tt
  else resolve tt.

End Routes.
End SimpleRoutes.

(** ** Running the servers on the database *)

(** Modelled from the spec: the storage module the simple server imports
    ([server/storage.ts]) is not among the sources.  The spec has one
    ledger store with one contract behind both variants of the workflow,
    so the simple routes run on [DatabaseStorage] as well. *)
Definition simple_storage : IStorage Db := storage.

Inductive variant := Strict | Simple.

Definition recordEntry (v : variant) : EntryInput.t -> Async Db response :=
  match v with
  | Strict => StrictRoutes.actions_entry
  | Simple => @SimpleRoutes.actions_entry Db simple_storage
  end.

Definition recordIssue (v : variant) : IssueInput.t -> Async Db response :=
  match v with
  | Strict => StrictRoutes.actions_issue
  | Simple => @SimpleRoutes.actions_issue Db simple_storage
  end.

Definition seed (v : variant) : Async Db unit :=
  match v with
  | Strict => StrictRoutes.seed
  | Simple => @SimpleRoutes.seed Db simple_storage
  end.

(** The same handlers over the integer columns. *)
Definition boundedEntry (v : variant) : EntryInput.t -> Async Db response :=
  match v with
  | Strict => @StrictRoutes.actions_entry Db integer_storage
  | Simple => @SimpleRoutes.actions_entry Db integer_storage
  end.

Definition boundedIssue (v : variant) : IssueInput.t -> Async Db response :=
  match v with
  | Strict => @StrictRoutes.actions_issue Db integer_storage
  | Simple => @SimpleRoutes.actions_issue Db integer_storage
  end.

(** A small database used in the examples: the seed rows at time 1000. *)
Definition seeded : Db := snd (seed Strict (emptyDb 1000)).


(** ** Requests, time and reachable stores *)

Inductive request :=
| PostEntry (body : EntryInput.t)
| PostIssue (body : IssueInput.t)
| DeleteMaterial (c : string)
| PostReset
| DeleteLogs
| GetMaterials (search : option string)
| GetLogs.

(** The store after a request has been served (or has thrown). *)
Definition handle (v : variant) (r : request) (db : Db) : Db :=
  match r with
  | PostEntry body => snd (recordEntry v body db)
  | PostIssue body => snd (recordIssue v body db)
  | DeleteMaterial c => snd (deleteMaterial c db)
  | PostReset => snd (resetInventory db)
  | DeleteLogs => snd (clearLogs db)
  | GetMaterials search => snd (getMaterials search db)
  | GetLogs => snd (getLogs None db)
  end.

(** Time passing between two requests. *)
Definition advance (dt : Z) (db : Db) : Db :=
  mkDb (materials db) (logs db) (binTransactions db) (clock db + dt).

(** The stores a server can be in: it starts on an empty database, seeds
    it at start-up (a restart seeds again), and serves requests. *)
Inductive reachable (v : variant) : Db -> Prop :=
| reach_empty t0 : reachable v (emptyDb t0)
| reach_seed db : reachable v db -> reachable v (snd (seed v db))
| reach_request db r : reachable v db -> reachable v (handle v r db)
| reach_tick db dt : 0 <= dt -> reachable v db -> reachable v (advance dt db).

(** A sequence of entry calls, each after some time has passed. *)
Fixpoint recordEntries (v : variant) (calls : list (Z * EntryInput.t)) (db : Db)
    : list (outcome response) * Db :=
  match calls with
  | [] => ([], db)
  | (dt, body) :: rest =>
      let (o, db1) := recordEntry v body (advance dt db) in
      let (os, db2) := recordEntries v rest db1 in
      (o :: os, db2)
  end.

(** An entry or an issue, for statements about both. *)
Inductive call :=
| Entry (body : EntryInput.t)
| Issue (body : IssueInput.t).

Definition perform (v : variant) (k : call) : Async Db response :=
  match k with
  | Entry body => recordEntry v body
  | Issue body => recordIssue v body
  end.

Definition call_code (k : call) : string :=
  match k with
  | Entry body => EntryInput.materialCode body
  | Issue body => IssueInput.materialCode body
  end.

Definition call_action (k : call) : action :=
  match k with
  | Entry _ => entry
  | Issue _ => issue
  end.

Definition call_quantity (k : call) : Z :=
  match k with
  | Entry body => EntryInput.quantity body
  | Issue body => IssueInput.quantity body
  end.

Definition call_rack (k : call) : string :=
  match k with
  | Entry body => EntryInput.rack body
  | Issue body => IssueInput.rack body
  end.

Definition call_bin (k : call) : string :=
  match k with
  | Entry body => EntryInput.bin body
  | Issue body => IssueInput.bin body
  end.

(** ** Observations used in the statements *)

(** The row [getMaterialByCode] sees. *)
Definition current (c : string) (db : Db) : option Material.t :=
  head (filter (DatabaseStorage.has_code c) (materials db)).

(** The balance [createLog] snapshots. *)
Definition balance (c : string) (db : Db) : Z :=
  match current c db with
  | Some material => Material.quantity material
  | None => 0
  end.

(** Equality of two strings up to letter case. *)
Definition caseless_eq (a b : string) : Prop :=
  Js.toLowerCase a = Js.toLowerCase b.

#[global] Instance caseless_eq_dec a b : Decision (caseless_eq a b).
Proof. unfold caseless_eq. apply _. Defined.

Definition valid_entry (body : EntryInput.t) : Prop := parse_entry body = inr body.

Definition valid_issue (body : IssueInput.t) : Prop := parse_issue body = inr body.

Definition entry_updates (existing : Material.t) (input : EntryInput.t)
    : MaterialUpdates.t :=
  MaterialUpdates.mk None
    (Some (Material.quantity existing + EntryInput.quantity input))
    (Some (EntryInput.rack input)) (Some (EntryInput.bin input)).

Definition issue_updates (existing : Material.t) (input : IssueInput.t)
    : MaterialUpdates.t :=
  MaterialUpdates.mk None
    (Some (Material.quantity existing - IssueInput.quantity input)) None None.

(** The material row an entry leaves behind. *)
Definition entered (existing : option Material.t) (input : EntryInput.t) (now : Z)
    : Material.t :=
  match existing with
  | Some e => DatabaseStorage.set_columns (entry_updates e input) now e
  | None =>
      Material.mk (EntryInput.materialCode input) (EntryInput.quantity input)
                  (EntryInput.rack input) (EntryInput.bin input) now
  end.

Definition entered_table (existing : option Material.t) (input : EntryInput.t)
    (now : Z) (rows : list Material.t) : list Material.t :=
  match existing with
  | Some e =>
      DatabaseStorage.update_where (EntryInput.materialCode input)
        (entry_updates e input) now <$> rows
  | None => rows ++ [entered None input now]
  end.

Definition entry_log (v : variant) (input : EntryInput.t) (balance now : Z) : Log.t :=
  Log.mk (EntryInput.materialCode input) entry (EntryInput.quantity input)
         (EntryInput.rack input) (EntryInput.bin input)
         (match v with Strict => EntryInput.enteredBy input | Simple => None end)
         None (Some "system") balance now.

Definition entry_tx (input : EntryInput.t) (balance now : Z) : BinTransaction.t :=
  BinTransaction.mk (EntryInput.materialCode input)
    (EntryInput.rack input +:+ "-" +:+ EntryInput.bin input)
    (EntryInput.quantity input) 0 balance (EntryInput.enteredBy input) now.

(** The material row an issue leaves behind. *)
Definition issued (e : Material.t) (input : IssueInput.t) (now : Z) : Material.t :=
  DatabaseStorage.set_columns (issue_updates e input) now e.

Definition issue_log (input : IssueInput.t) (balance now : Z) : Log.t :=
  Log.mk (IssueInput.materialCode input) issue (IssueInput.quantity input)
         (IssueInput.rack input) (IssueInput.bin input)
         None (IssueInput.issuedBy input) (Some "system") balance now.

Definition issue_tx (input : IssueInput.t) (balance now : Z) : BinTransaction.t :=
  BinTransaction.mk (IssueInput.materialCode input)
    (IssueInput.rack input +:+ "-" +:+ IssueInput.bin input)
    0 (IssueInput.quantity input) balance (IssueInput.issuedBy input) now.

(** The strict server's location test, as its issue handler writes it. *)
Definition location_differs (existing : Material.t) (input : IssueInput.t) : bool :=
  negb (String.eqb (Js.toUpperCase (Material.rack existing))
                   (Js.toUpperCase (IssueInput.rack input)))
  || negb (String.eqb (Material.bin existing) (IssueInput.bin input)).

Definition records_tx (v : variant) : bool :=
  match v with Strict => true | Simple => false end.

Definition nonnegative (db : Db) : Prop :=
  Forall (fun m => 0 <= Material.quantity m) (materials db).

Definition unique_codes (db : Db) : Prop :=
  NoDup (Material.code <$> materials db).

Definition status_of (o : outcome response) : option Z :=
  match o with
  | Fulfilled r => Some (status r)
  | Rejected _ => None
  end.

Definition total_quantity (calls : list (Z * EntryInput.t)) : Z :=
  foldr (fun call acc => EntryInput.quantity (snd call) + acc) 0 calls.

(** ** The other routes, on the database *)

Definition listMaterials (v : variant) : option string -> Async Db (list Material.t) :=
  match v with
  | Strict => StrictRoutes.materials_list
  | Simple => @SimpleRoutes.materials_list Db simple_storage
  end.

Definition getMaterial (v : variant) : string -> Async Db response :=
  match v with
  | Strict => StrictRoutes.materials_get
  | Simple => @SimpleRoutes.materials_get Db simple_storage
  end.

Definition removeMaterial (v : variant) : string -> Async Db response :=
  match v with
  | Strict => StrictRoutes.materials_delete
  | Simple => @SimpleRoutes.materials_delete Db simple_storage
  end.

Definition resetAll (v : variant) : Async Db response :=
  match v with
  | Strict => StrictRoutes.materials_reset
  | Simple => @SimpleRoutes.materials_reset Db simple_storage
  end.

Definition listLogs (v : variant) : Async Db (list Log.t) :=
  match v with
  | Strict => StrictRoutes.logs_list
  | Simple => @SimpleRoutes.logs_list Db simple_storage
  end.

Definition clearAllLogs (v : variant) : Async Db response :=
  match v with
  | Strict => StrictRoutes.logs_clear
  | Simple => @SimpleRoutes.logs_clear Db simple_storage
  end.

(** Characters with a meaning of their own in a [LIKE] pattern. *)
Definition is_wildcard (c : ascii) : bool :=
  Ascii.eqb c "%" || Ascii.eqb c "_" || Ascii.eqb c "\".

(** A string that [LIKE] reads literally. *)
Fixpoint literal (p : string) : bool :=
  match p with
  | EmptyString => true
  | String c p' => negb (is_wildcard c) && literal p'
  end.

(** Midnight in a server that runs on universal time. *)
Definition utc_midnight (t : Z) : Z := t - t mod 86400000.

(** A log as the handlers write them: a positive quantity, a balance
    that is not negative and, after an entry, at least the quantity
    entered. *)
Definition sound_log (l : Log.t) : Prop :=
  0 < Log.quantity l /\ 0 <= Log.balanceQty l /\
  (Log.action l = entry -> Log.quantity l <= Log.balanceQty l).

(** A bin transaction as the strict handlers write them: received or
    issued, never both, never neither. *)
Definition sound_tx (t : BinTransaction.t) : Prop :=
  0 <= BinTransaction.balanceQty t /\
  ((0 < BinTransaction.receivedQty t /\ BinTransaction.issuedQty t = 0 /\
    BinTransaction.receivedQty t <= BinTransaction.balanceQty t) \/
   (BinTransaction.receivedQty t = 0 /\ 0 < BinTransaction.issuedQty t)).

Definition sound_store (db : Db) : Prop :=
  nonnegative db /\ Forall sound_log (logs db) /\
  Forall sound_tx (binTransactions db).

(** A material whose rack and bin are of the location vocabulary. *)
Definition in_vocabulary (m : Material.t) : Prop :=
  is_rack (Material.rack m) = true /\ is_bin (Material.bin m) = true.

Definition vocabulary_store (db : Db) : Prop :=
  Forall in_vocabulary (materials db).

(** A material whose text columns are ASCII strings. *)
Definition ascii_material (m : Material.t) : Prop :=
  Js.is_ascii (Material.code m) = true /\
  Js.is_ascii (Material.rack m) = true /\
  Js.is_ascii (Material.bin m) = true.

Definition ascii_store (db : Db) : Prop :=
  Forall ascii_material (materials db).

(** A sequence of entry calls over the integer columns; it goes on after
    a call that threw. *)
Fixpoint boundedEntries (v : variant) (calls : list (Z * EntryInput.t)) (db : Db)
    : list (outcome response) * Db :=
  match calls with
  | [] => ([], db)
  | (dt, body) :: rest =>
      let (o, db1) := boundedEntry v body (advance dt db) in
      let (os, db2) := boundedEntries v rest db1 in
      (o :: os, db2)
  end.

Definition boundedPerform (v : variant) (k : call) : Async Db response :=
  match k with
  | Entry body => boundedEntry v body
  | Issue body => boundedIssue v body
  end.

(** A store whose quantities the integer columns can hold, none negative. *)
Definition in_range (db : Db) : Prop :=
  Forall (fun m => 0 <= Material.quantity m <= IntegerColumns.integer_max)
         (materials db).

(** The new quantity of a valid entry is one the integer columns hold. *)
Definition entry_fits (k : call) (db : Db) : Prop :=
  match k with
  | Entry body =>
      valid_entry body ->
      balance (EntryInput.materialCode body) db + EntryInput.quantity body
        <= IntegerColumns.integer_max
  | Issue _ => True
  end.

(** ** The cases of the two handlers *)

(** The issue handlers fall in exactly one of five cases. *)
Inductive issue_case (v : variant) (body : IssueInput.t) (db : Db)
    : outcome response * Db -> Prop :=
| issue_case_invalid field :
    parse_issue body = inl field ->
    issue_case v body db (Fulfilled (JsonInvalid field), db)
| issue_case_not_found :
    valid_issue body ->
    current (IssueInput.materialCode body) db = None ->
    issue_case v body db (Fulfilled NotFound, db)
| issue_case_mismatch e :
    valid_issue body ->
    current (IssueInput.materialCode body) db = Some e ->
    v = Strict ->
    location_differs e body = true ->
    issue_case v body db (Fulfilled (LocationMismatch e), db)
| issue_case_insufficient e :
    valid_issue body ->
    current (IssueInput.materialCode body) db = Some e ->
    (v = Strict -> location_differs e body = false) ->
    Material.quantity e < IssueInput.quantity body ->
    issue_case v body db (Fulfilled InsufficientQuantity, db)
| issue_case_done e :
    valid_issue body ->
    current (IssueInput.materialCode body) db = Some e ->
    (v = Strict -> location_differs e body = false) ->
    IssueInput.quantity body <= Material.quantity e ->
    let now := clock db in
    let m := issued e body now in
    issue_case v body db
      (Fulfilled (JsonMaterial 200 (Some m)),
       mkDb (DatabaseStorage.update_where (IssueInput.materialCode body)
               (issue_updates e body) now <$> materials db)
            (logs db ++ [issue_log body (Material.quantity m) now])
            (if records_tx v
             then binTransactions db ++ [issue_tx body (Material.quantity m) now]
             else binTransactions db)
            now).

(** The entry handlers fall in exactly one of two cases. *)
Inductive entry_case (v : variant) (body : EntryInput.t) (db : Db)
    : outcome response * Db -> Prop :=
| entry_case_invalid field :
    parse_entry body = inl field ->
    entry_case v body db (Fulfilled (JsonInvalid field), db)
| entry_case_done :
    valid_entry body ->
    let c := EntryInput.materialCode body in
    let now := clock db in
    let m := entered (current c db) body now in
    entry_case v body db
      (Fulfilled (JsonMaterial (created_or_updated (current c db)) (Some m)),
       mkDb (entered_table (current c db) body now (materials db))
            (logs db ++ [entry_log v body (Material.quantity m) now])
            (if records_tx v
             then binTransactions db ++ [entry_tx body (Material.quantity m) now]
             else binTransactions db)
            now).

(** ** Sample stores and inputs *)


(** A run of the strict server: seed, one entry, time passing, an issue
    of everything in stock, a refused issue, a reset. *)
Definition sample_run : Db :=
  handle Strict PostReset
    (handle Strict (PostIssue (IssueInput.mk "TRIM-001" 1 "A1" "01" None))
       (handle Strict (PostIssue (IssueInput.mk "TRIM-001" 150 "a1" "01" None))
          (advance 60000
             (handle Strict (PostEntry (EntryInput.mk "TRIM-001" 50 "A1" "01" None))
                (snd (seed Strict (emptyDb 1000))))))).

(** Three entries for a code the seed does not have. *)
Definition three_entries : list (Z * EntryInput.t) :=
  [ (0, EntryInput.mk "ZIP-20" 40 "A1" "01" None);
    (500, EntryInput.mk "ZIP-20" 25 "B2" "15" (Some "ravi"));
    (90000, EntryInput.mk "ZIP-20" 5 "C3" "84" None) ].

(** Two entries whose sum is one more than an integer column holds. *)
Definition overflowing_entries : list (Z * EntryInput.t) :=
  [ (0, EntryInput.mk "BULK-1" 2147483647 "A1" "01" None);
    (500, EntryInput.mk "BULK-1" 1 "A1" "01" None) ].

(** The rack-and-bin search term [rack:R-bin:B]. *)
Definition rack_bin_term (r b : string) : string :=
  "rack:" +:+ r +:+ "-bin:" +:+ b.


(** ** The model on small inputs *)

Example js_split_ex : Js.split "-" "rack:A1-bin:01" = ["rack:A1"; "bin:01"].
Proof. reflexivity. Qed.

Example js_split_none : Js.split "-" "rack:A1 bin:01" = ["rack:A1 bin:01"].
Proof. reflexivity. Qed.

Example js_replace_ex : Js.replace "rack:" "" "rack:A1" = "A1".
Proof. reflexivity. Qed.

Example js_trim_ex : Js.trim "  a b  " = "a b".
Proof. reflexivity. Qed.

Example js_upper_ex : Js.toUpperCase "a1-Zz" = "A1-ZZ".
Proof. reflexivity. Qed.

Example js_includes_ex :
  Js.includes "xrack:1" "rack:" = true /\ Js.includes "rac:k" "rack:" = false.
Proof. split; reflexivity. Qed.

Example like_prefix_ex : like "a%" "a1" = true /\ like "a%" "b1" = false.
Proof. split; reflexivity. Qed.

Example like_infix_ex : like "%im-0%" "trim-001" = true.
Proof. reflexivity. Qed.

Example seeded_rows :
  materials seeded =
    [ Material.mk "TRIM-001" 100 "A1" "01" 1000;
      Material.mk "TRIM-002" 50 "B2" "15" 1000;
      Material.mk "BUTTON-X" 500 "C1" "84" 1000 ].
Proof. reflexivity. Qed.

(** The end-to-end example of the specification: entry of 50 on a stock
    of 100, issue of 30, refused issue of 200. *)
Example spec_end_to_end :
  let db1 := snd (recordEntry Strict (EntryInput.mk "TRIM-001" 50 "A1" "01" None) seeded) in
  let db2 := snd (recordIssue Strict (IssueInput.mk "TRIM-001" 30 "A1" "01" None) db1) in
  let last := recordIssue Strict (IssueInput.mk "TRIM-001" 200 "A1" "01" None) db2 in
  Material.quantity <$> current "TRIM-001" db1 = Some 150 /\
  Log.balanceQty <$> logs db1 = [150] /\
  Material.quantity <$> current "TRIM-001" db2 = Some 120 /\
  Log.balanceQty <$> logs db2 = [150; 120] /\
  last = (Fulfilled InsufficientQuantity, db2).
Proof. repeat split. Qed.

Example spec_search_example :
  fst (getMaterials (Some "rack:A1-bin:01") seeded) =
    Fulfilled [Material.mk "TRIM-001" 100 "A1" "01" 1000] /\
  fst (getMaterials (Some "rack:A1-bin:02") seeded) = Fulfilled [].
Proof. split; reflexivity. Qed.

(** ** Facts about the tables *)

Section Tables.
Import DatabaseStorage.
Implicit Types (c : string) (db : Db) (u : MaterialUpdates.t) (now : Z).

Lemma current_has_code c db m : current c db = Some m -> Material.code m = c.
Proof.
  unfold current. intros Hm.
  apply head_Some_elem_of in Hm. apply list_elem_of_filter in Hm. apply Hm.
Qed.

Lemma current_elem_of c db m : current c db = Some m -> m ∈ materials db.
Proof.
  unfold current. intros Hm.
  apply head_Some_elem_of in Hm. apply list_elem_of_filter in Hm. apply Hm.
Qed.

Lemma update_where_code c u now m :
  MaterialUpdates.code u = None ->
  Material.code (update_where c u now m) = Material.code m.
Proof.
  intros Hu. unfold update_where. destruct (decide (has_code c m)); [|done].
  unfold set_columns. simpl. by rewrite Hu.
Qed.

Lemma filter_update_where c c' u now (rows : list Material.t) :
  MaterialUpdates.code u = None ->
  filter (has_code c') (update_where c u now <$> rows) =
  update_where c u now <$> filter (has_code c') rows.
Proof.
  intros Hu. induction rows as [|m rows IH]; [done|].
  rewrite fmap_cons, !filter_cons.
  pose proof (update_where_code c u now m Hu) as Hc.
  destruct (decide (has_code c' (update_where c u now m))) as [H1|H1];
    destruct (decide (has_code c' m)) as [H2|H2];
    rewrite ?fmap_cons, IH; try done;
    unfold has_code in *; congruence.
Qed.

Lemma update_where_hit c u now (rows : list Material.t) :
  update_where c u now <$> filter (has_code c) rows =
  set_columns u now <$> filter (has_code c) rows.
Proof.
  apply list_fmap_ext. intros i m Hm.
  apply list_elem_of_lookup_2, list_elem_of_filter in Hm as [Hm _].
  unfold update_where. by rewrite decide_True.
Qed.

Lemma update_where_miss c c' u now (rows : list Material.t) :
  c' <> c ->
  update_where c u now <$> filter (has_code c') rows = filter (has_code c') rows.
Proof.
  intros Hc. rewrite <- (list_fmap_id (filter (has_code c') rows)) at 2.
  apply list_fmap_ext. intros i m Hm.
  apply list_elem_of_lookup_2, list_elem_of_filter in Hm as [Hm _].
  unfold update_where. rewrite decide_False; [done|].
  unfold has_code in *. congruence.
Qed.

Lemma head_fmap {A B} (f : A -> B) (l : list A) : head (f <$> l) = f <$> head l.
Proof. by destruct l. Qed.

End Tables.

Section Runs.
Implicit Types (c : string) (db : Db) (u : MaterialUpdates.t).

Lemma getMaterialByCode_current c db :
  getMaterialByCode c db = (Fulfilled (current c db), db).
Proof. reflexivity. Qed.

Lemma updateMaterial_run c u db :
  updateMaterial c u db =
  (Fulfilled (DatabaseStorage.set_columns u (clock db) <$> current c db),
   DatabaseStorage.set_materials
     (fmap (DatabaseStorage.update_where c u (clock db))) db).
Proof.
  cbn. unfold DatabaseStorage.updateMaterial, await, read, write, resolve, current.
  simpl. by rewrite head_fmap.
Qed.

Lemma createMaterial_run im db :
  let m := Material.mk (InsertMaterial.code im) (InsertMaterial.quantity im)
             (InsertMaterial.rack im) (InsertMaterial.bin im) (clock db) in
  createMaterial im db =
  (Fulfilled m, DatabaseStorage.set_materials (fun rows => rows ++ [m]) db).
Proof. reflexivity. Qed.

Lemma createLog_run il db :
  let l := Log.mk (InsertLog.materialCode il) (InsertLog.action il)
             (InsertLog.quantity il) (InsertLog.rack il) (InsertLog.bin il)
             (InsertLog.enteredBy il) (InsertLog.issuedBy il)
             (InsertLog.userId il) (balance (InsertLog.materialCode il) db)
             (clock db) in
  createLog il db =
  (Fulfilled l, DatabaseStorage.set_logs (fun rows => rows ++ [l]) db).
Proof.
  cbn. unfold DatabaseStorage.createLog, await, read, write, resolve, balance.
  simpl. unfold current. by destruct (head _).
Qed.

Lemma createBinTransaction_run t db :
  let x := BinTransaction.mk (InsertBinTransaction.materialCode t)
             (InsertBinTransaction.binLocation t)
             (InsertBinTransaction.receivedQty t)
             (InsertBinTransaction.issuedQty t)
             (InsertBinTransaction.balanceQty t)
             (InsertBinTransaction.personName t) (clock db) in
  createBinTransaction t db =
  (Fulfilled x, DatabaseStorage.set_binTransactions (fun rows => rows ++ [x]) db).
Proof. reflexivity. Qed.

Import DatabaseStorage.

Lemma current_updated c u db :
  MaterialUpdates.code u = None ->
  current c (set_materials (fmap (update_where c u (clock db))) db) =
  set_columns u (clock db) <$> current c db.
Proof.
  intros Hu. unfold current, set_materials. simpl.
  by rewrite filter_update_where, update_where_hit, head_fmap.
Qed.

Lemma current_updated_other c c' u db :
  MaterialUpdates.code u = None -> c' <> c ->
  current c' (set_materials (fmap (update_where c u (clock db))) db) =
  current c' db.
Proof.
  intros Hu Hc. unfold current, set_materials. simpl.
  by rewrite filter_update_where, update_where_miss.
Qed.

Lemma current_created c db (m : Material.t) :
  current c db = None -> Material.code m = c ->
  current c (set_materials (fun rows => rows ++ [m]) db) = Some m.
Proof.
  unfold current, set_materials. simpl. intros Hnone Hm.
  apply head_None in Hnone. rewrite filter_app, Hnone. simpl.
  by rewrite filter_cons_True.
Qed.

End Runs.

(** ** What one call does to the store *)

Ltac step :=
  unfold await at 1;
  first [ rewrite getMaterialByCode_current
        | rewrite updateMaterial_run
        | rewrite createMaterial_run
        | rewrite createLog_run
        | rewrite createBinTransaction_run ];
  cbv zeta.

Section Handlers.
Implicit Types (v : variant) (db : Db) (e : Material.t).
Import DatabaseStorage.

Lemma parse_entry_inr body input : parse_entry body = inr input -> input = body.
Proof. unfold parse_entry. destruct check_fields; congruence. Qed.

Lemma parse_issue_inr body input : parse_issue body = inr input -> input = body.
Proof. unfold parse_issue. destruct check_fields; congruence. Qed.

Lemma parse_entry_cases body :
  valid_entry body \/ exists field, parse_entry body = inl field.
Proof. unfold valid_entry, parse_entry. destruct check_fields; eauto. Qed.

Lemma parse_issue_cases body :
  valid_issue body \/ exists field, parse_issue body = inl field.
Proof. unfold valid_issue, parse_issue. destruct check_fields; eauto. Qed.

Lemma entered_quantity existing input now :
  Material.quantity (entered existing input now) =
  match existing with
  | Some e => Material.quantity e + EntryInput.quantity input
  | None => EntryInput.quantity input
  end.
Proof. by destruct existing. Qed.

Lemma entry_run v body db :
  valid_entry body ->
  let c := EntryInput.materialCode body in
  let now := clock db in
  let m := entered (current c db) body now in
  recordEntry v body db =
  (Fulfilled (JsonMaterial (created_or_updated (current c db)) (Some m)),
   mkDb (entered_table (current c db) body now (materials db))
        (logs db ++ [entry_log v body (Material.quantity m) now])
        (if records_tx v
         then binTransactions db ++ [entry_tx body (Material.quantity m) now]
         else binTransactions db)
        now).
Proof.
  intros Hv c now m.
  destruct v; unfold recordEntry, StrictRoutes.actions_entry,
    SimpleRoutes.actions_entry, simple_storage; rewrite Hv; step; fold c;
    subst m; destruct (current c db) as [e|] eqn:He.
  - step. rewrite He. cbn [fmap option_fmap option_map]. step. step.
    unfold balance. rewrite current_updated by done. rewrite He. reflexivity.
  - unfold await at 1. step. unfold resolve at 1. cbv beta iota. step. step. unfold balance. erewrite current_created by done. reflexivity.
  - step. rewrite He. cbn [fmap option_fmap option_map]. step.
    unfold balance. rewrite current_updated by done. rewrite He. reflexivity.
  - unfold await at 1. step. unfold resolve at 1. cbv beta iota. step. unfold balance. erewrite current_created by done. reflexivity.
Qed.

Lemma issue_run v body db e :
  valid_issue body ->
  let c := IssueInput.materialCode body in
  let now := clock db in
  current c db = Some e ->
  (v = Strict -> location_differs e body = false) ->
  IssueInput.quantity body <= Material.quantity e ->
  let m := issued e body now in
  recordIssue v body db =
  (Fulfilled (JsonMaterial 200 (Some m)),
   mkDb (DatabaseStorage.update_where c (issue_updates e body) now <$> materials db)
        (logs db ++ [issue_log body (Material.quantity m) now])
        (if records_tx v
         then binTransactions db ++ [issue_tx body (Material.quantity m) now]
         else binTransactions db)
        now).
Proof.
  intros Hv c now He Hloc Hq m.
  assert ((Material.quantity e <? IssueInput.quantity body) = false) as Hlt
    by (apply Z.ltb_ge; lia).
  destruct v; unfold recordIssue, StrictRoutes.actions_issue,
    SimpleRoutes.actions_issue, simple_storage; rewrite Hv; step; fold c; rewrite He.
  - fold (location_differs e body). rewrite Hloc by done. rewrite Hlt.
    step. rewrite He. cbn [fmap option_fmap option_map]. step. step.
    unfold balance. rewrite current_updated by done. rewrite He. reflexivity.
  - rewrite Hlt.
    step. rewrite He. cbn [fmap option_fmap option_map]. step.
    unfold balance. rewrite current_updated by done. rewrite He. reflexivity.
Qed.

(** The refusals of the issue handlers, each leaving the store as it was. *)
Lemma issue_invalid v body db field :
  parse_issue body = inl field ->
  recordIssue v body db = (Fulfilled (JsonInvalid field), db).
Proof.
  intros Hp. destruct v; unfold recordIssue, StrictRoutes.actions_issue,
    SimpleRoutes.actions_issue; by rewrite Hp.
Qed.

Lemma issue_not_found v body db :
  valid_issue body ->
  current (IssueInput.materialCode body) db = None ->
  recordIssue v body db = (Fulfilled NotFound, db).
Proof.
  intros Hv He. destruct v; unfold recordIssue, StrictRoutes.actions_issue,
    SimpleRoutes.actions_issue, simple_storage; rewrite Hv; step; by rewrite He.
Qed.

Lemma issue_location_mismatch body db e :
  valid_issue body ->
  current (IssueInput.materialCode body) db = Some e ->
  location_differs e body = true ->
  recordIssue Strict body db = (Fulfilled (LocationMismatch e), db).
Proof.
  intros Hv He Hloc. unfold recordIssue, StrictRoutes.actions_issue.
  rewrite Hv. step. rewrite He. fold (location_differs e body).
  by rewrite Hloc.
Qed.

Lemma issue_insufficient v body db e :
  valid_issue body ->
  current (IssueInput.materialCode body) db = Some e ->
  (v = Strict -> location_differs e body = false) ->
  Material.quantity e < IssueInput.quantity body ->
  recordIssue v body db = (Fulfilled InsufficientQuantity, db).
Proof.
  intros Hv He Hloc Hq. apply Z.ltb_lt in Hq.
  destruct v; unfold recordIssue, StrictRoutes.actions_issue,
    SimpleRoutes.actions_issue, simple_storage; rewrite Hv; step; rewrite He.
  - fold (location_differs e body). rewrite Hloc by done. by rewrite Hq.
  - by rewrite Hq.
Qed.

Lemma entry_invalid v body db field :
  parse_entry body = inl field ->
  recordEntry v body db = (Fulfilled (JsonInvalid field), db).
Proof.
  intros Hp. destruct v; unfold recordEntry, StrictRoutes.actions_entry,
    SimpleRoutes.actions_entry; by rewrite Hp.
Qed.

End Handlers.

(** ** Case analysis of the two handlers *)

Section Cases.
Implicit Types (v : variant) (db : Db) (e : Material.t).

Lemma location_differs_false e body :
  location_differs e body = false <->
  Js.toUpperCase (Material.rack e) = Js.toUpperCase (IssueInput.rack body) /\
  Material.bin e = IssueInput.bin body.
Proof.
  unfold location_differs. rewrite orb_false_iff, !negb_false_iff.
  by rewrite !String.eqb_eq.
Qed.

Lemma location_differs_true e body :
  location_differs e body = true <->
  Js.toUpperCase (Material.rack e) <> Js.toUpperCase (IssueInput.rack body) \/
  Material.bin e <> IssueInput.bin body.
Proof.
  unfold location_differs. rewrite orb_true_iff, !negb_true_iff.
  by rewrite !String.eqb_neq.
Qed.


Lemma issue_cases v body db : issue_case v body db (recordIssue v body db).
Proof.
  destruct (parse_issue_cases body) as [Hv|[field Hf]].
  2:{ rewrite (issue_invalid v body db field Hf). by constructor. }
  destruct (current (IssueInput.materialCode body) db) as [e|] eqn:He.
  2:{ rewrite (issue_not_found v body db Hv He). by constructor. }
  assert (v = Strict /\ location_differs e body = true \/
          (v = Strict -> location_differs e body = false)) as [[-> Hloc]|Hloc].
  { destruct v; [|by right]. destruct (location_differs e body); auto. }
  { rewrite (issue_location_mismatch body db e Hv He Hloc).
    by eapply issue_case_mismatch. }
  destruct (Z_lt_le_dec (Material.quantity e) (IssueInput.quantity body)) as [Hq|Hq].
  - rewrite (issue_insufficient v body db e Hv He Hloc Hq).
    by eapply issue_case_insufficient.
  - rewrite (issue_run v body db e Hv He Hloc Hq).
    by eapply issue_case_done.
Qed.


Lemma entry_cases v body db : entry_case v body db (recordEntry v body db).
Proof.
  destruct (parse_entry_cases body) as [Hv|[field Hf]].
  - rewrite (entry_run v body db Hv). by constructor.
  - rewrite (entry_invalid v body db field Hf). by constructor.
Qed.

Lemma valid_entry_fields body :
  valid_entry body ->
  EntryInput.materialCode body <> "" /\ 0 < EntryInput.quantity body /\
  is_rack (EntryInput.rack body) = true /\ is_bin (EntryInput.bin body) = true.
Proof.
  unfold valid_entry, parse_entry, check_fields.
  destruct (Js.truthy (EntryInput.materialCode body)) eqn:Hc,
    (0 <? EntryInput.quantity body) eqn:Hq,
    (is_rack (EntryInput.rack body)), (is_bin (EntryInput.bin body));
    simpl; try discriminate; intros _.
  split; [by destruct (EntryInput.materialCode body)|]. split; [lia|done].
Qed.

Lemma valid_issue_fields body :
  valid_issue body ->
  IssueInput.materialCode body <> "" /\ 0 < IssueInput.quantity body /\
  is_rack (IssueInput.rack body) = true /\ is_bin (IssueInput.bin body) = true.
Proof.
  unfold valid_issue, parse_issue, check_fields.
  destruct (Js.truthy (IssueInput.materialCode body)) eqn:Hc,
    (0 <? IssueInput.quantity body) eqn:Hq,
    (is_rack (IssueInput.rack body)), (is_bin (IssueInput.bin body));
    simpl; try discriminate; intros _.
  split; [by destruct (IssueInput.materialCode body)|]. split; [lia|done].
Qed.

Lemma current_materials c db1 db2 :
  materials db1 = materials db2 -> current c db1 = current c db2.
Proof. unfold current. by intros ->. Qed.

Lemma current_after_entry v body db :
  valid_entry body ->
  current (EntryInput.materialCode body) (snd (recordEntry v body db)) =
  Some (entered (current (EntryInput.materialCode body) db) body (clock db)).
Proof.
  intros Hv. rewrite (entry_run v body db Hv). cbn [snd].
  destruct (current (EntryInput.materialCode body) db) as [e|] eqn:He.
  - pose proof (current_updated (EntryInput.materialCode body)
                  (entry_updates e body) db eq_refl) as Hu.
    rewrite He in Hu. cbn [fmap option_fmap option_map] in Hu.
    etrans; [|exact Hu]. by apply current_materials.
  - etrans; [|exact (current_created (EntryInput.materialCode body) db
                        (entered None body (clock db)) He eq_refl)].
    by apply current_materials.
Qed.

Lemma current_after_issue v body db e :
  valid_issue body ->
  current (IssueInput.materialCode body) db = Some e ->
  (v = Strict -> location_differs e body = false) ->
  IssueInput.quantity body <= Material.quantity e ->
  current (IssueInput.materialCode body) (snd (recordIssue v body db)) =
  Some (issued e body (clock db)).
Proof.
  intros Hv He Hloc Hq. rewrite (issue_run v body db e Hv He Hloc Hq). cbn [snd].
  pose proof (current_updated (IssueInput.materialCode body)
                (issue_updates e body) db eq_refl) as Hu.
  rewrite He in Hu. cbn [fmap option_fmap option_map] in Hu.
  etrans; [|exact Hu]. by apply current_materials.
Qed.

End Cases.

(** ** Properties of the storage layer *)



(** C8.  [resetInventory] keeps every row of the materials table, in
    place: each row keeps its code, rack and bin, gets quantity 0 and the
    current time as [lastUpdated]; the log and bin-transaction tables are
    the same afterwards. *)
Theorem resetInventory_zeroes_in_place (db : Db) :
  let db' := snd (DatabaseStorage.resetInventory db) in
  fst (DatabaseStorage.resetInventory db) = Fulfilled tt /\
  Forall2 (fun m m' =>
             Material.code m' = Material.code m /\
             Material.rack m' = Material.rack m /\
             Material.bin m' = Material.bin m /\
             Material.quantity m' = 0 /\
             Material.lastUpdated m' = clock db)
          (materials db) (materials db') /\
  logs db' = logs db /\
  binTransactions db' = binTransactions db.
Proof.
  cbn. repeat split.
  induction (materials db) as [|m rows IH]; constructor; [done|apply IH].
Qed.

(** ** Properties of the entry and issue handlers *)

Lemma failed_issue_unchanged v body db r db' :
  recordIssue v body db = (Fulfilled r, db') -> status r <> 200 -> db' = db.
Proof.
  intros Hrun Hs. pose proof (issue_cases v body db) as Hc. rewrite Hrun in Hc.
  inversion Hc; subst; try done.
Qed.

(** C2.  In both servers every refusal of an issue is decided before
    anything is written: an absent material gives NotFound, a location
    mismatch (strict server) LocationMismatch, a quantity below the
    requested one InsufficientQuantity (a 400 refusal in any case), each
    with the store unchanged; and whenever the response is not the 200
    success the store (materials, logs, bin transactions) is the one the
    call started from.  The handlers never throw. *)
Theorem issue_failures_precede_mutation (v : variant) (body : IssueInput.t) (db : Db) :
  (valid_issue body ->
   current (IssueInput.materialCode body) db = None ->
   recordIssue v body db = (Fulfilled NotFound, db)) /\
  (forall e, valid_issue body ->
   current (IssueInput.materialCode body) db = Some e ->
   v = Strict -> location_differs e body = true ->
   recordIssue v body db = (Fulfilled (LocationMismatch e), db)) /\
  (forall e, valid_issue body ->
   current (IssueInput.materialCode body) db = Some e ->
   (v = Strict -> location_differs e body = false) ->
   Material.quantity e < IssueInput.quantity body ->
   recordIssue v body db = (Fulfilled InsufficientQuantity, db)) /\
  (forall e, valid_issue body ->
   current (IssueInput.materialCode body) db = Some e ->
   Material.quantity e < IssueInput.quantity body ->
   exists r, recordIssue v body db = (Fulfilled r, db) /\ status r = 400) /\
  (forall r db',
   recordIssue v body db = (Fulfilled r, db') -> status r <> 200 -> db' = db) /\
  (forall err db', recordIssue v body db <> (Rejected err, db')).
Proof.
  split; [|split; [|split; [|split; [|split]]]].
  - apply issue_not_found.
  - intros e Hv He -> Hloc. by apply issue_location_mismatch.
  - intros e. apply issue_insufficient.
  - intros e Hv He Hq.
    assert (v = Strict /\ location_differs e body = true \/
            (v = Strict -> location_differs e body = false)) as [[-> Hloc]|Hloc].
    { destruct v; [|by right]. destruct (location_differs e body); auto. }
    + exists (LocationMismatch e). split; [|done]. by apply issue_location_mismatch.
    + exists InsufficientQuantity. split; [|done]. by apply (issue_insufficient v body db e).
  - apply failed_issue_unchanged.
  - intros err db' Hrun. pose proof (issue_cases v body db) as Hc.
    rewrite Hrun in Hc. inversion Hc.
Qed.

Lemma issue_failures_precede_mutation_witness :
  recordIssue Strict (IssueInput.mk "TRIM-001" 200 "A1" "01" None) seeded =
    (Fulfilled InsufficientQuantity, seeded) /\
  recordIssue Simple (IssueInput.mk "TRIM-001" 200 "Z9" "77" None) seeded =
    (Fulfilled InsufficientQuantity, seeded) /\
  recordIssue Strict (IssueInput.mk "TRIM-001" 30 "B7" "01" None) seeded =
    (Fulfilled (LocationMismatch (Material.mk "TRIM-001" 100 "A1" "01" 1000)), seeded) /\
  recordIssue Simple (IssueInput.mk "NONE-000" 1 "A1" "01" None) seeded =
    (Fulfilled NotFound, seeded).
Proof.
  split; [|split; [|split]].
  - destruct (issue_failures_precede_mutation Strict
                (IssueInput.mk "TRIM-001" 200 "A1" "01" None) seeded)
      as (_ & _ & Hlow & _).
    apply (Hlow (Material.mk "TRIM-001" 100 "A1" "01" 1000));
      [reflexivity | reflexivity | reflexivity | simpl; lia].
  - destruct (issue_failures_precede_mutation Simple
                (IssueInput.mk "TRIM-001" 200 "Z9" "77" None) seeded)
      as (_ & _ & Hlow & _).
    apply (Hlow (Material.mk "TRIM-001" 100 "A1" "01" 1000));
      [reflexivity | reflexivity | discriminate | simpl; lia].
  - destruct (issue_failures_precede_mutation Strict
                (IssueInput.mk "TRIM-001" 30 "B7" "01" None) seeded)
      as (_ & Hloc & _).
    apply Hloc; reflexivity.
  - destruct (issue_failures_precede_mutation Simple
                (IssueInput.mk "NONE-000" 1 "A1" "01" None) seeded)
      as (Habsent & _).
    apply Habsent; reflexivity.
Defined.

(** C4.  A successful entry or issue, on either server, appends exactly
    one row to the log table; that row carries the call's material code,
    action, quantity, rack and bin, and its [balanceQty] is the quantity
    the material has in the store the call leaves behind. *)
Theorem successful_call_appends_one_log (v : variant) (k : call) (db : Db)
    (s : Z) (body : option Material.t) :
  fst (perform v k db) = Fulfilled (JsonMaterial s body) ->
  let db' := snd (perform v k db) in
  exists (log : Log.t) (m : Material.t),
    logs db' = logs db ++ [log] /\
    Log.materialCode log = call_code k /\
    Log.action log = call_action k /\
    Log.quantity log = call_quantity k /\
    Log.rack log = call_rack k /\
    Log.bin log = call_bin k /\
    current (call_code k) db' = Some m /\
    body = Some m /\
    Log.balanceQty log = Material.quantity m.
Proof.
  intros Hok db'. subst db'.
  destruct k as [input|input]; cbn [perform call_code call_action call_quantity
                                    call_rack call_bin] in *.
  - pose proof (entry_cases v input db) as Hc.
    inversion Hc as [field Hf Hrun|Hv c now m Hrun].
    { rewrite <- Hrun in Hok. discriminate. }
    pose proof (current_after_entry v input db Hv) as Hcur.
    rewrite <- Hrun in *. cbn [fst snd] in *.
    injection Hok as <- <-.
    exists (entry_log v input (Material.quantity m) now), m.
    repeat split; done.
  - pose proof (issue_cases v input db) as Hc.
    inversion Hc as [field Hf Hrun|Hv He Hrun|e Hv He Hstrict Hloc Hrun
                     |e Hv He Hloc Hq Hrun|e Hv He Hloc Hq now m Hrun];
      try (rewrite <- Hrun in Hok; discriminate).
    pose proof (current_after_issue v input db e Hv He Hloc Hq) as Hcur.
    rewrite <- Hrun in *. cbn [fst snd] in *.
    injection Hok as <- <-.
    exists (issue_log input (Material.quantity m) now), m.
    repeat split; done.
Qed.

Lemma successful_call_appends_one_log_witness :
  let k := Issue (IssueInput.mk "TRIM-001" 30 "a1" "01" (Some "asha")) in
  let db' := snd (perform Strict k seeded) in
  exists (log : Log.t) (m : Material.t),
    logs db' = logs seeded ++ [log] /\
    Log.materialCode log = "TRIM-001" /\
    Log.action log = issue /\
    Log.quantity log = 30 /\
    Log.rack log = "a1" /\
    Log.bin log = "01" /\
    current "TRIM-001" db' = Some m /\
    Some (Material.mk "TRIM-001" 70 "A1" "01" 1000) = Some m /\
    Log.balanceQty log = Material.quantity m.
Proof.
  apply (successful_call_appends_one_log Strict
           (Issue (IssueInput.mk "TRIM-001" 30 "a1" "01" (Some "asha")))
           seeded 200 (Some (Material.mk "TRIM-001" 70 "A1" "01" 1000))).
  reflexivity.
Defined.

(** ** Quantities never go below zero *)

Section Invariant.
Implicit Types (v : variant) (db : Db) (e : Material.t).

Lemma getMaterials_reads search db : snd (getMaterials search db) = db.
Proof.
  cbn. unfold DatabaseStorage.getMaterials.
  repeat case_match; reflexivity.
Qed.

Lemma update_where_nonnegative c u now rows q :
  MaterialUpdates.quantity u = Some q -> 0 <= q ->
  Forall (fun m => 0 <= Material.quantity m) rows ->
  Forall (fun m => 0 <= Material.quantity m)
         (DatabaseStorage.update_where c u now <$> rows).
Proof.
  intros Hu Hq Hrows. apply Forall_fmap. eapply Forall_impl; [exact Hrows|].
  intros m Hm. unfold compose, DatabaseStorage.update_where.
  destruct (decide _); [|done]. cbn. by rewrite Hu.
Qed.

Lemma entry_nonnegative v body db :
  nonnegative db -> nonnegative (snd (recordEntry v body db)).
Proof.
  intros Hdb. pose proof (entry_cases v body db) as Hc.
  inversion Hc as [field Hf Hrun|Hv c now m Hrun]; [done|].
  unfold nonnegative. cbn [snd materials].
  destruct (valid_entry_fields body Hv) as (_ & Hq & _).
  destruct (current c db) as [e|] eqn:He; cbn [entered_table].
  - assert (0 <= Material.quantity e) as He0.
    { eapply (proj1 (Forall_forall _ _) Hdb). by eapply current_elem_of. }
    eapply update_where_nonnegative; [reflexivity| |exact Hdb]. lia.
  - apply Forall_app. split; [exact Hdb|]. constructor; [cbn; lia|constructor].
Qed.

Lemma issue_nonnegative v body db :
  nonnegative db -> nonnegative (snd (recordIssue v body db)).
Proof.
  intros Hdb. pose proof (issue_cases v body db) as Hc.
  inversion Hc as [field Hf Hrun|Hv He Hrun|e Hv He Hstrict Hloc Hrun
                   |e Hv He Hloc Hq Hrun|e Hv He Hloc Hq now m Hrun]; try done.
  unfold nonnegative. cbn [snd materials].
  eapply update_where_nonnegative; [reflexivity| |exact Hdb]. lia.
Qed.

Lemma delete_nonnegative c db :
  nonnegative db -> nonnegative (snd (deleteMaterial c db)).
Proof.
  unfold nonnegative. cbn. rewrite !Forall_forall. intros Hdb m Hm.
  apply list_elem_of_filter in Hm as [_ Hm]. by apply Hdb.
Qed.

Lemma reset_nonnegative db : nonnegative (snd (resetInventory db)).
Proof.
  unfold nonnegative. cbn. apply Forall_fmap, Forall_forall. intros m _. done.
Qed.

Lemma handle_nonnegative v r db : nonnegative db -> nonnegative (handle v r db).
Proof.
  intros Hdb. destruct r; cbn [handle].
  - by apply entry_nonnegative.
  - by apply issue_nonnegative.
  - by apply delete_nonnegative.
  - apply reset_nonnegative.
  - exact Hdb.
  - by rewrite getMaterials_reads.
  - exact Hdb.
Qed.

Lemma seed_nonnegative v db : nonnegative db -> nonnegative (snd (seed v db)).
Proof.
  intros Hdb. unfold nonnegative.
  destruct v; cbn;
    destruct (length (DatabaseStorage.orderByLastUpdatedDesc (materials db)) =? 0)%nat;
    cbn; try exact Hdb;
    rewrite !Forall_app; repeat split; try exact Hdb;
    by (constructor; [cbn; lia|constructor]).
Qed.

End Invariant.

(** C7.  In every store either server can reach (from the empty database,
    through seeding, entries, issues, deletions, resets, log clearing,
    reads and the passing of time) every material has a quantity that is
    zero or more. *)
Theorem quantity_never_negative (v : variant) (db : Db) :
  reachable v db -> nonnegative db.
Proof.
  induction 1 as [t0|db Hreach IH|db r Hreach IH|db dt Hdt Hreach IH].
  - constructor.
  - by apply seed_nonnegative.
  - by apply handle_nonnegative.
  - exact IH.
Qed.


Lemma quantity_never_negative_witness : nonnegative sample_run.
Proof.
  apply (quantity_never_negative Strict sample_run).
  unfold sample_run.
  repeat first [ apply reach_request | apply reach_tick; [lia|]
               | apply reach_seed | apply reach_empty ].
Defined.

(** ** One row per code

    The tables are lists, with no primary-key constraint of their own:
    the handlers insert a material only after looking its code up, which
    keeps the codes of every reachable store distinct. *)

Section Unique.
Implicit Types (v : variant) (db : Db) (e : Material.t).

Lemma codes_update_where c u now (rows : list Material.t) :
  MaterialUpdates.code u = None ->
  Material.code <$> (DatabaseStorage.update_where c u now <$> rows) =
  Material.code <$> rows.
Proof.
  intros Hu. rewrite <- list_fmap_compose. apply list_fmap_ext.
  intros i m _. by apply update_where_code.
Qed.

Lemma current_None_fresh c db :
  current c db = None -> c ∉ Material.code <$> materials db.
Proof.
  unfold current. intros Hnone Hin. apply head_None in Hnone.
  apply list_elem_of_fmap in Hin as (m & -> & Hm).
  by eapply (filter_nil_not_elem_of _ _ m Hnone).
Qed.

Lemma entry_unique v body db :
  unique_codes db -> unique_codes (snd (recordEntry v body db)).
Proof.
  intros Hdb. destruct (entry_cases v body db) as [field Hf|Hv c now m]; [done|].
  unfold unique_codes. cbn [snd materials].
  destruct (current c db) as [e|] eqn:He; cbn [entered_table].
  - by rewrite codes_update_where.
  - rewrite fmap_app. apply NoDup_app. split; [exact Hdb|]. split.
    + intros x Hx Hin. apply list_elem_of_singleton in Hin. subst x.
      by apply (current_None_fresh c db He).
    + apply NoDup_singleton.
Qed.

Lemma issue_unique v body db :
  unique_codes db -> unique_codes (snd (recordIssue v body db)).
Proof.
  intros Hdb.
  destruct (issue_cases v body db)
    as [field Hf|Hv He|e Hv He Hstrict Hloc|e Hv He Hloc Hq|e Hv He Hloc Hq now m];
    try done.
  unfold unique_codes. cbn [snd materials]. by rewrite codes_update_where.
Qed.

Lemma delete_unique c db :
  unique_codes db -> unique_codes (snd (deleteMaterial c db)).
Proof.
  unfold unique_codes. cbn. intros Hdb.
  eapply sublist_NoDup; [exact Hdb|]. apply fmap_sublist, sublist_filter.
Qed.

Lemma reset_unique db : unique_codes db -> unique_codes (snd (resetInventory db)).
Proof.
  unfold unique_codes. cbn. intros Hdb.
  by rewrite <- list_fmap_compose.
Qed.

Lemma seed_unique v db : unique_codes db -> unique_codes (snd (seed v db)).
Proof.
  intros Hdb. unfold unique_codes.
  destruct v; cbn;
    destruct (length (DatabaseStorage.orderByLastUpdatedDesc (materials db)) =? 0)%nat
      eqn:Hlen; cbn; try exact Hdb;
    apply Nat.eqb_eq in Hlen;
    unfold DatabaseStorage.orderByLastUpdatedDesc in Hlen;
    rewrite merge_sort_Permutation in Hlen;
    apply length_zero_iff_nil in Hlen; rewrite Hlen; cbn;
    by apply (bool_decide_unpack _).
Qed.

(** X20.  One row per code: in every store a server can reach, no two
    rows of the materials table have the same code. *)
Lemma codes_stay_unique v db : reachable v db -> unique_codes db.
Proof.
  induction 1 as [t0|db Hreach IH|db r Hreach IH|db dt Hdt Hreach IH].
  - constructor.
  - by apply seed_unique.
  - destruct r; cbn [handle].
    + by apply entry_unique.
    + by apply issue_unique.
    + by apply delete_unique.
    + by apply reset_unique.
    + exact IH.
    + by rewrite getMaterials_reads.
    + exact IH.
  - exact IH.
Qed.

End Unique.

(** ** Letter case *)

Lemma downcase_upcase c : Js.downcase (Js.upcase c) = Js.downcase c.
Proof. destruct c as [[] [] [] [] [] [] [] []]; reflexivity. Qed.

Lemma upcase_downcase c : Js.upcase (Js.downcase c) = Js.upcase c.
Proof. destruct c as [[] [] [] [] [] [] [] []]; reflexivity. Qed.

Lemma toLowerCase_toUpperCase s : Js.toLowerCase (Js.toUpperCase s) = Js.toLowerCase s.
Proof.
  induction s as [|c s IH]; [done|].
  cbn. f_equal; [apply downcase_upcase|apply IH].
Qed.

Lemma toUpperCase_toLowerCase s : Js.toUpperCase (Js.toLowerCase s) = Js.toUpperCase s.
Proof.
  induction s as [|c s IH]; [done|].
  cbn. f_equal; [apply upcase_downcase|apply IH].
Qed.

(** Comparing upper-cased strings, as the issue handler does, is
    comparing up to letter case. *)
Lemma toUpperCase_eq_caseless a b :
  Js.toUpperCase a = Js.toUpperCase b <-> caseless_eq a b.
Proof.
  unfold caseless_eq. split; intros Heq.
  - by rewrite <- (toLowerCase_toUpperCase a), Heq, toLowerCase_toUpperCase.
  - by rewrite <- (toUpperCase_toLowerCase a), Heq, toUpperCase_toLowerCase.
Qed.

Lemma caseless_eq_refl a : caseless_eq a a.
Proof. done. Qed.

(** ** The location vocabulary *)

Section Vocabulary.
Implicit Types (v : variant) (db : Db) (s : string).

Lemma downcase_digit (c d : ascii) :
  Js.is_digit d = true -> Js.downcase c = d -> c = d.
Proof.
  intros Hd <-. revert Hd.
  destruct c as [[] [] [] [] [] [] [] []]; (reflexivity || discriminate).
Qed.

Lemma caseless_bin s bin : is_bin bin = true -> caseless_eq s bin -> s = bin.
Proof.
  unfold caseless_eq.
  destruct bin as [|a [|b [|]]]; try discriminate. cbn [is_bin].
  intros Hb. apply andb_true_iff in Hb as [Ha Hb].
  destruct s as [|c1 [|c2 [|]]]; cbn; try discriminate.
  intros Heq. injection Heq as H1 H2.
  assert (Js.downcase a = a) as Haa.
  { revert Ha. destruct a as [[] [] [] [] [] [] [] []];
      (reflexivity || discriminate). }
  assert (Js.downcase b = b) as Hbb.
  { revert Hb. destruct b as [[] [] [] [] [] [] [] []];
      (reflexivity || discriminate). }
  rewrite Haa in H1. rewrite Hbb in H2.
  by rewrite (downcase_digit c1 a Ha H1), (downcase_digit c2 b Hb H2).
Qed.

Lemma update_where_vocabulary c u now (rows : list Material.t) :
  (forall m, in_vocabulary m ->
             in_vocabulary (DatabaseStorage.set_columns u now m)) ->
  Forall in_vocabulary rows ->
  Forall in_vocabulary (DatabaseStorage.update_where c u now <$> rows).
Proof.
  intros Hu Hrows. apply Forall_fmap. eapply Forall_impl; [exact Hrows|].
  intros m Hm. unfold compose, DatabaseStorage.update_where.
  destruct (decide _); [by apply Hu|done].
Qed.

Lemma entry_vocabulary v body db :
  vocabulary_store db -> vocabulary_store (snd (recordEntry v body db)).
Proof.
  intros Hdb. destruct (entry_cases v body db) as [field Hf|Hv c now m]; [done|].
  unfold vocabulary_store. cbn [snd materials].
  destruct (valid_entry_fields body Hv) as (_ & _ & Hrack & Hbin).
  destruct (current c db) as [e|] eqn:He; cbn [entered_table].
  - apply update_where_vocabulary; [|exact Hdb]. intros m' _. by split.
  - apply Forall_app. split; [exact Hdb|]. constructor; [by split|constructor].
Qed.

Lemma issue_vocabulary v body db :
  vocabulary_store db -> vocabulary_store (snd (recordIssue v body db)).
Proof.
  intros Hdb.
  destruct (issue_cases v body db)
    as [field Hf|Hv He|e Hv He Hstrict Hloc|e Hv He Hloc Hq|e Hv He Hloc Hq now m];
    try done.
  unfold vocabulary_store. cbn [snd materials].
  apply update_where_vocabulary; [|exact Hdb]. by intros m' Hm'.
Qed.

Lemma seed_vocabulary v db :
  vocabulary_store db -> vocabulary_store (snd (seed v db)).
Proof.
  intros Hdb. unfold vocabulary_store.
  destruct v; cbn;
    destruct (length (DatabaseStorage.orderByLastUpdatedDesc (materials db)) =? 0)%nat;
    cbn; try exact Hdb;
    rewrite !Forall_app; repeat split; try exact Hdb;
    by (constructor; [split; reflexivity|constructor]).
Qed.

(** The racks and bins of a store the servers can reach are of the
    location vocabulary, hence ASCII. *)
Lemma reachable_vocabulary v db : reachable v db -> vocabulary_store db.
Proof.
  induction 1 as [t0|db Hreach IH|db r Hreach IH|db dt Hdt Hreach IH].
  - constructor.
  - by apply seed_vocabulary.
  - destruct r; cbn [handle].
    + by apply entry_vocabulary.
    + by apply issue_vocabulary.
    + unfold vocabulary_store in *. cbn. rewrite !Forall_forall in *.
      intros m Hm. apply list_elem_of_filter in Hm as [_ Hm]. by apply IH.
    + unfold vocabulary_store in *. cbn. apply Forall_fmap.
      eapply Forall_impl; [exact IH|]. by intros m Hm.
    + exact IH.
    + by rewrite getMaterials_reads.
    + exact IH.
  - exact IH.
Qed.

End Vocabulary.

(** ** The location check of the strict server *)

Lemma not_a_location_mismatch e : InsufficientQuantity <> LocationMismatch e.
Proof. unfold InsufficientQuantity, LocationMismatch. cbv [String.append]. discriminate. Qed.

(** C1.  In a store the strict server can reach, for an issue with a
    valid body on an existing material: if the supplied rack or the
    supplied bin does not equal the recorded one up to letter case, the
    handler answers LocationMismatch (status 400) and leaves the store
    as it was; if both equal the recorded ones up to letter case, it
    never answers LocationMismatch.  (Racks and bins of such a store and
    of a valid body are of the location vocabulary; a bin is two digits,
    so the handler's exact comparison of bins is a comparison up to
    letter case.) *)
Theorem strict_issue_location_check (body : IssueInput.t) (db : Db) (e : Material.t) :
  reachable Strict db ->
  valid_issue body ->
  current (IssueInput.materialCode body) db = Some e ->
  ((~ caseless_eq (Material.rack e) (IssueInput.rack body) \/
    ~ caseless_eq (Material.bin e) (IssueInput.bin body)) ->
   recordIssue Strict body db = (Fulfilled (LocationMismatch e), db) /\
   status (LocationMismatch e) = 400) /\
  (caseless_eq (Material.rack e) (IssueInput.rack body) ->
   caseless_eq (Material.bin e) (IssueInput.bin body) ->
   forall e', fst (recordIssue Strict body db) <> Fulfilled (LocationMismatch e')).
Proof.
  intros Hreach Hv He.
  destruct (valid_issue_fields body Hv) as (_ & _ & _ & Hbin).
  split.
  - intros Hdiff. split; [|done].
    apply issue_location_mismatch; [done|done|].
    apply location_differs_true. rewrite toUpperCase_eq_caseless.
    destruct Hdiff as [Hrack|Hb]; [by left|right].
    intros Heq. apply Hb. by rewrite Heq.
  - intros Hrack Hb e' Hrun.
    assert (location_differs e body = false) as Hloc.
    { apply location_differs_false. rewrite toUpperCase_eq_caseless.
      split; [done|]. by apply caseless_bin. }
    destruct (Z_lt_le_dec (Material.quantity e) (IssueInput.quantity body)) as [Hq|Hq].
    + rewrite (issue_insufficient Strict body db e Hv He (fun _ => Hloc) Hq) in Hrun.
      cbn [fst] in Hrun. apply (not_a_location_mismatch e'). congruence.
    + rewrite (issue_run Strict body db e Hv He (fun _ => Hloc) Hq) in Hrun.
      discriminate.
Qed.

Lemma seeded_reachable : reachable Strict seeded.
Proof. apply reach_seed, reach_empty. Qed.

Lemma strict_issue_location_check_witness :
  recordIssue Strict (IssueInput.mk "TRIM-001" 30 "B7" "01" None) seeded =
    (Fulfilled (LocationMismatch (Material.mk "TRIM-001" 100 "A1" "01" 1000)), seeded) /\
  fst (recordIssue Strict (IssueInput.mk "TRIM-001" 30 "a1" "01" None) seeded) <>
    Fulfilled (LocationMismatch (Material.mk "TRIM-001" 100 "A1" "01" 1000)).
Proof.
  split.
  - destruct (strict_issue_location_check
                (IssueInput.mk "TRIM-001" 30 "B7" "01" None) seeded
                (Material.mk "TRIM-001" 100 "A1" "01" 1000)
                seeded_reachable eq_refl eq_refl)
      as [Hdiff _].
    apply Hdiff. left. unfold caseless_eq. simpl. discriminate.
  - destruct (strict_issue_location_check
                (IssueInput.mk "TRIM-001" 30 "a1" "01" None) seeded
                (Material.mk "TRIM-001" 100 "A1" "01" 1000)
                seeded_reachable eq_refl eq_refl)
      as [_ Hsame].
    apply Hsame; reflexivity.
Defined.

(** ** The handlers over the integer columns *)

Section Bounded.
Implicit Types (v : variant) (db : Db) (c : string) (e : Material.t).

Lemma bounded_getMaterialByCode c db :
  @getMaterialByCode Db integer_storage c db = (Fulfilled (current c db), db).
Proof. reflexivity. Qed.

Lemma bounded_updateMaterial c u db q :
  MaterialUpdates.quantity u = Some q ->
  @updateMaterial Db integer_storage c u db =
  if IntegerColumns.fits q
  then (Fulfilled (DatabaseStorage.set_columns u (clock db) <$> current c db),
        DatabaseStorage.set_materials
          (fmap (DatabaseStorage.update_where c u (clock db))) db)
  else (Rejected IntegerColumns.out_of_range, db).
Proof.
  intros Hq. cbn. unfold IntegerColumns.updateMaterial. rewrite Hq.
  destruct (IntegerColumns.fits q); [|reflexivity].
  exact (updateMaterial_run c u db).
Qed.

Lemma bounded_createMaterial im db :
  @createMaterial Db integer_storage im db =
  if IntegerColumns.fits (InsertMaterial.quantity im)
  then
    let m := Material.mk (InsertMaterial.code im) (InsertMaterial.quantity im)
               (InsertMaterial.rack im) (InsertMaterial.bin im) (clock db) in
    (Fulfilled m, DatabaseStorage.set_materials (fun rows => rows ++ [m]) db)
  else (Rejected IntegerColumns.out_of_range, db).
Proof.
  cbn. unfold IntegerColumns.createMaterial.
  by destruct (IntegerColumns.fits _).
Qed.

Lemma bounded_createLog il db :
  @createLog Db integer_storage il db =
  if IntegerColumns.fits (InsertLog.quantity il)
     && IntegerColumns.fits (balance (InsertLog.materialCode il) db)
  then
    let l := Log.mk (InsertLog.materialCode il) (InsertLog.action il)
               (InsertLog.quantity il) (InsertLog.rack il) (InsertLog.bin il)
               (InsertLog.enteredBy il) (InsertLog.issuedBy il)
               (InsertLog.userId il) (balance (InsertLog.materialCode il) db)
               (clock db) in
    (Fulfilled l, DatabaseStorage.set_logs (fun rows => rows ++ [l]) db)
  else (Rejected IntegerColumns.out_of_range, db).
Proof.
  pose proof (createLog_run il db) as Hrun. cbv zeta in Hrun.
  change (@createLog Db integer_storage il db)
    with (IntegerColumns.createLog il db).
  unfold IntegerColumns.createLog, await at 1.
  change (DatabaseStorage.getMaterialByCode (InsertLog.materialCode il) db)
    with (Fulfilled (current (InsertLog.materialCode il) db), db).
  cbv beta iota zeta.
  change (match current (InsertLog.materialCode il) db with
          | Some material => Material.quantity material
          | None => 0
          end) with (balance (InsertLog.materialCode il) db).
  destruct (_ && _); [exact Hrun|reflexivity].
Qed.

Lemma bounded_createBinTransaction t db :
  @createBinTransaction Db integer_storage t db =
  if IntegerColumns.fits (InsertBinTransaction.receivedQty t)
     && IntegerColumns.fits (InsertBinTransaction.issuedQty t)
     && IntegerColumns.fits (InsertBinTransaction.balanceQty t)
  then
    let x := BinTransaction.mk (InsertBinTransaction.materialCode t)
               (InsertBinTransaction.binLocation t)
               (InsertBinTransaction.receivedQty t)
               (InsertBinTransaction.issuedQty t)
               (InsertBinTransaction.balanceQty t)
               (InsertBinTransaction.personName t) (clock db) in
    (Fulfilled x, DatabaseStorage.set_binTransactions (fun rows => rows ++ [x]) db)
  else (Rejected IntegerColumns.out_of_range, db).
Proof.
  cbn. unfold IntegerColumns.createBinTransaction.
  by destruct (_ && _).
Qed.

End Bounded.

Ltac bstep :=
  unfold await at 1;
  first [ rewrite bounded_getMaterialByCode
        | erewrite bounded_updateMaterial by reflexivity
        | rewrite bounded_createMaterial
        | rewrite bounded_createLog
        | rewrite bounded_createBinTransaction ];
  cbv zeta.

Section BoundedHandlers.
Implicit Types (v : variant) (db : Db) (c : string) (e : Material.t).

Lemma fits_zero : IntegerColumns.fits 0 = true.
Proof. reflexivity. Qed.

(** An entry over the integer columns: refused by the store when the new
    quantity does not fit, else the entry of [recordEntry]. *)
Lemma boundedEntry_run v body db :
  valid_entry body ->
  let c := EntryInput.materialCode body in
  let new := balance c db + EntryInput.quantity body in
  boundedEntry v body db =
  if IntegerColumns.fits new
  then if IntegerColumns.fits (EntryInput.quantity body)
       then recordEntry v body db
       else (Rejected IntegerColumns.out_of_range,
             DatabaseStorage.set_materials
               (entered_table (current c db) body (clock db)) db)
  else (Rejected IntegerColumns.out_of_range, db).
Proof.
  intros Hv c new. rewrite (entry_run v body db Hv). fold c.
  subst new. unfold balance.
  destruct v; unfold boundedEntry, StrictRoutes.actions_entry,
    SimpleRoutes.actions_entry; rewrite Hv; bstep; fold c;
    destruct (current c db) as [e|] eqn:He.
  - bstep. rewrite He. cbn [fmap option_fmap option_map].
    destruct (IntegerColumns.fits (Material.quantity e + EntryInput.quantity body))
      eqn:Hnew; [|reflexivity].
    bstep. unfold balance. rewrite current_updated by done. rewrite He.
    cbn [fmap option_fmap option_map InsertLog.quantity InsertLog.materialCode
         DatabaseStorage.set_columns Material.quantity MaterialUpdates.quantity
         default entry_updates].
    unfold id. rewrite Hnew, andb_true_r.
    destruct (IntegerColumns.fits (EntryInput.quantity body)) eqn:Hq; [|reflexivity].
    bstep.
    cbn [InsertBinTransaction.receivedQty InsertBinTransaction.issuedQty
         InsertBinTransaction.balanceQty Material.quantity].
    rewrite Hq, fits_zero, Hnew. reflexivity.
  - unfold await at 1. bstep.
    cbn [InsertMaterial.quantity]. rewrite Z.add_0_l.
    destruct (IntegerColumns.fits (EntryInput.quantity body)) eqn:Hq; [|reflexivity].
    unfold resolve at 1. cbv beta iota. bstep.
    unfold balance. erewrite current_created by done.
    cbn [InsertLog.quantity InsertLog.materialCode Material.quantity
         InsertMaterial.quantity].
    rewrite Hq. cbn [andb]. bstep.
    cbn [InsertBinTransaction.receivedQty InsertBinTransaction.issuedQty
         InsertBinTransaction.balanceQty Material.quantity
         InsertMaterial.quantity].
    rewrite Hq, fits_zero. reflexivity.
  - bstep. rewrite He. cbn [fmap option_fmap option_map].
    destruct (IntegerColumns.fits (Material.quantity e + EntryInput.quantity body))
      eqn:Hnew; [|reflexivity].
    bstep. unfold balance. rewrite current_updated by done. rewrite He.
    cbn [fmap option_fmap option_map InsertLog.quantity InsertLog.materialCode
         DatabaseStorage.set_columns Material.quantity MaterialUpdates.quantity
         default entry_updates].
    unfold id. rewrite Hnew, andb_true_r.
    destruct (IntegerColumns.fits (EntryInput.quantity body)) eqn:Hq; reflexivity.
  - unfold await at 1. bstep.
    cbn [InsertMaterial.quantity]. rewrite Z.add_0_l.
    destruct (IntegerColumns.fits (EntryInput.quantity body)) eqn:Hq; [|reflexivity].
    unfold resolve at 1. cbv beta iota. bstep.
    unfold balance. erewrite current_created by done.
    cbn [InsertLog.quantity InsertLog.materialCode Material.quantity
         InsertMaterial.quantity].
    rewrite Hq. reflexivity.
Qed.

(** An issue over the integer columns that passes the checks of the
    handler: refused by the store when a written quantity does not fit,
    else the issue of [recordIssue]. *)
Lemma boundedIssue_run v body db e :
  valid_issue body ->
  let c := IssueInput.materialCode body in
  current c db = Some e ->
  (v = Strict -> location_differs e body = false) ->
  IssueInput.quantity body <= Material.quantity e ->
  boundedIssue v body db =
  if IntegerColumns.fits (Material.quantity e - IssueInput.quantity body)
  then if IntegerColumns.fits (IssueInput.quantity body)
       then recordIssue v body db
       else (Rejected IntegerColumns.out_of_range,
             DatabaseStorage.set_materials
               (fmap (DatabaseStorage.update_where c (issue_updates e body)
                        (clock db))) db)
  else (Rejected IntegerColumns.out_of_range, db).
Proof.
  intros Hv c He Hloc Hq. rewrite (issue_run v body db e Hv He Hloc Hq). fold c.
  assert ((Material.quantity e <? IssueInput.quantity body) = false) as Hlt
    by (apply Z.ltb_ge; lia).
  destruct v; unfold boundedIssue, StrictRoutes.actions_issue,
    SimpleRoutes.actions_issue; rewrite Hv; bstep; fold c; rewrite He.
  - fold (location_differs e body). rewrite Hloc by done. rewrite Hlt.
    bstep. rewrite He. cbn [fmap option_fmap option_map].
    destruct (IntegerColumns.fits (Material.quantity e - IssueInput.quantity body))
      eqn:Hnew; [|reflexivity].
    bstep. unfold balance. rewrite current_updated by done. rewrite He.
    cbn [fmap option_fmap option_map InsertLog.quantity InsertLog.materialCode
         DatabaseStorage.set_columns Material.quantity MaterialUpdates.quantity
         default issue_updates].
    unfold id. rewrite Hnew, andb_true_r.
    destruct (IntegerColumns.fits (IssueInput.quantity body)) eqn:Hqf; [|reflexivity].
    bstep.
    cbn [InsertBinTransaction.receivedQty InsertBinTransaction.issuedQty
         InsertBinTransaction.balanceQty Material.quantity].
    rewrite Hqf, fits_zero, Hnew. reflexivity.
  - rewrite Hlt.
    bstep. rewrite He. cbn [fmap option_fmap option_map].
    destruct (IntegerColumns.fits (Material.quantity e - IssueInput.quantity body))
      eqn:Hnew; [|reflexivity].
    bstep. unfold balance. rewrite current_updated by done. rewrite He.
    cbn [fmap option_fmap option_map InsertLog.quantity InsertLog.materialCode
         DatabaseStorage.set_columns Material.quantity MaterialUpdates.quantity
         default issue_updates].
    unfold id. rewrite Hnew, andb_true_r.
    destruct (IntegerColumns.fits (IssueInput.quantity body)) eqn:Hqf; reflexivity.
Qed.

(** The refusals of the handlers are those of [recordIssue] and
    [recordEntry]: no statement reaches the store. *)
Lemma boundedIssue_invalid v body db field :
  parse_issue body = inl field ->
  boundedIssue v body db = (Fulfilled (JsonInvalid field), db).
Proof.
  intros Hp. destruct v; unfold boundedIssue, StrictRoutes.actions_issue,
    SimpleRoutes.actions_issue; by rewrite Hp.
Qed.

Lemma boundedIssue_not_found v body db :
  valid_issue body ->
  current (IssueInput.materialCode body) db = None ->
  boundedIssue v body db = (Fulfilled NotFound, db).
Proof.
  intros Hv He. destruct v; unfold boundedIssue, StrictRoutes.actions_issue,
    SimpleRoutes.actions_issue; rewrite Hv; bstep; by rewrite He.
Qed.

Lemma boundedIssue_location_mismatch body db e :
  valid_issue body ->
  current (IssueInput.materialCode body) db = Some e ->
  location_differs e body = true ->
  boundedIssue Strict body db = (Fulfilled (LocationMismatch e), db).
Proof.
  intros Hv He Hloc. unfold boundedIssue, StrictRoutes.actions_issue.
  rewrite Hv. bstep. rewrite He. fold (location_differs e body).
  by rewrite Hloc.
Qed.

Lemma boundedIssue_insufficient v body db e :
  valid_issue body ->
  current (IssueInput.materialCode body) db = Some e ->
  (v = Strict -> location_differs e body = false) ->
  Material.quantity e < IssueInput.quantity body ->
  boundedIssue v body db = (Fulfilled InsufficientQuantity, db).
Proof.
  intros Hv He Hloc Hq. apply Z.ltb_lt in Hq.
  destruct v; unfold boundedIssue, StrictRoutes.actions_issue,
    SimpleRoutes.actions_issue; rewrite Hv; bstep; rewrite He.
  - fold (location_differs e body). rewrite Hloc by done. by rewrite Hq.
  - by rewrite Hq.
Qed.

Lemma boundedEntry_invalid v body db field :
  parse_entry body = inl field ->
  boundedEntry v body db = (Fulfilled (JsonInvalid field), db).
Proof.
  intros Hp. destruct v; unfold boundedEntry, StrictRoutes.actions_entry,
    SimpleRoutes.actions_entry; by rewrite Hp.
Qed.

Lemma fits_between q :
  0 <= q <= IntegerColumns.integer_max -> IntegerColumns.fits q = true.
Proof.
  unfold IntegerColumns.fits, IntegerColumns.integer_min,
    IntegerColumns.integer_max. lia.
Qed.

Lemma fits_inv q :
  IntegerColumns.fits q = true ->
  IntegerColumns.integer_min <= q <= IntegerColumns.integer_max.
Proof. unfold IntegerColumns.fits. lia. Qed.

(** Within the range of the columns the two models of an entry agree. *)
Lemma boundedEntry_agrees v body db :
  valid_entry body ->
  0 <= balance (EntryInput.materialCode body) db ->
  balance (EntryInput.materialCode body) db + EntryInput.quantity body
    <= IntegerColumns.integer_max ->
  boundedEntry v body db = recordEntry v body db.
Proof.
  intros Hv H0 Hmax. rewrite (boundedEntry_run v body db Hv). cbv zeta.
  destruct (valid_entry_fields body Hv) as (_ & Hq & _).
  rewrite !fits_between; [done|lia|lia].
Qed.

(** Within the range of the columns the two models of an issue agree. *)
Lemma boundedIssue_agrees v body db :
  0 <= balance (IssueInput.materialCode body) db <= IntegerColumns.integer_max ->
  boundedIssue v body db = recordIssue v body db.
Proof.
  intros Hb. unfold balance in Hb.
  destruct (parse_issue body) as [field|body'] eqn:Hp.
  { by rewrite boundedIssue_invalid with (field := field),
      issue_invalid with (field := field). }
  assert (valid_issue body) as Hv.
  { unfold valid_issue. rewrite Hp. f_equal.
    unfold parse_issue in Hp. by destruct (check_fields _ _ _ _); simplify_eq. }
  destruct (valid_issue_fields body Hv) as (_ & Hq & _).
  destruct (current (IssueInput.materialCode body) db) as [e|] eqn:He.
  2: { by rewrite boundedIssue_not_found, issue_not_found. }
  destruct v.
  - destruct (location_differs e body) eqn:Hloc.
    { by rewrite (boundedIssue_location_mismatch body db e),
        (issue_location_mismatch body db e). }
    destruct (Z_lt_le_dec (Material.quantity e) (IssueInput.quantity body)).
    { by rewrite (boundedIssue_insufficient Strict body db e),
        (issue_insufficient Strict body db e). }
    rewrite (boundedIssue_run Strict body db e) by done.
    rewrite !fits_between; [done|lia|lia].
  - destruct (Z_lt_le_dec (Material.quantity e) (IssueInput.quantity body)).
    { by rewrite (boundedIssue_insufficient Simple body db e),
        (issue_insufficient Simple body db e). }
    rewrite (boundedIssue_run Simple body db e) by done.
    rewrite !fits_between; [done|lia|lia].
Qed.

Lemma total_quantity_nonneg (calls : list (Z * EntryInput.t)) :
  Forall (fun call => valid_entry (snd call)) calls -> 0 <= total_quantity calls.
Proof.
  induction 1 as [|[dt body] rest Hv _ IH]; [done|].
  unfold total_quantity in *. cbn [foldr snd] in *.
  destruct (valid_entry_fields body Hv) as (_ & Hq & _). lia.
Qed.

Lemma balance_after_entry v body db :
  valid_entry body ->
  balance (EntryInput.materialCode body) (snd (recordEntry v body db)) =
  balance (EntryInput.materialCode body) db + EntryInput.quantity body.
Proof.
  intros Hv. unfold balance at 1. rewrite (current_after_entry v body db Hv).
  rewrite entered_quantity. unfold balance.
  by destruct (current _ db); [|rewrite Z.add_0_l].
Qed.

(** A sequence of entries whose sum the columns can hold runs as on
    unbounded columns. *)
Lemma boundedEntries_agree v c (calls : list (Z * EntryInput.t)) : forall db,
  Forall (fun call => valid_entry (snd call) /\
                      EntryInput.materialCode (snd call) = c) calls ->
  0 <= balance c db ->
  balance c db + total_quantity calls <= IntegerColumns.integer_max ->
  boundedEntries v calls db = recordEntries v calls db.
Proof.
  induction calls as [|[dt body] rest IH]; intros db Hall H0 Hmax; [done|].
  apply Forall_cons in Hall as [[Hv Hc] Hall]. cbn [snd] in Hv, Hc. subst c.
  assert (0 <= total_quantity rest) as Hrest.
  { apply total_quantity_nonneg. eapply Forall_impl; [exact Hall|]. by intros ? [? _]. }
  destruct (valid_entry_fields body Hv) as (_ & Hq & _).
  unfold total_quantity in Hmax, Hrest. cbn [foldr snd] in Hmax.
  cbn [boundedEntries recordEntries].
  rewrite (boundedEntry_agrees v body (advance dt db) Hv)
    by (unfold balance in *;
        change (current (EntryInput.materialCode body) (advance dt db))
          with (current (EntryInput.materialCode body) db); lia).
  pose proof (balance_after_entry v body (advance dt db) Hv) as Hbal.
  change (balance (EntryInput.materialCode body) (advance dt db))
    with (balance (EntryInput.materialCode body) db) in Hbal.
  destruct (recordEntry v body (advance dt db)) as [o db1]. cbn [snd] in Hbal.
  rewrite (IH db1 Hall); [done|lia|].
  unfold total_quantity. lia.
Qed.

End BoundedHandlers.

(** ** Sequences of entries *)

Section Entries.
Implicit Types (v : variant) (db : Db) (e : Material.t).

Lemma current_advance c dt db : current c (advance dt db) = current c db.
Proof. reflexivity. Qed.

Lemma entry_status v body db :
  valid_entry body ->
  status_of (fst (recordEntry v body db)) =
  Some (created_or_updated (current (EntryInput.materialCode body) db)).
Proof. intros Hv. by rewrite (entry_run v body db Hv). Qed.

Lemma entries_on_existing v c calls : forall db e,
  Forall (fun call => valid_entry (snd call) /\
                      EntryInput.materialCode (snd call) = c) calls ->
  current c db = Some e ->
  exists m,
    current c (snd (recordEntries v calls db)) = Some m /\
    Material.quantity m = Material.quantity e + total_quantity calls /\
    (calls = [] -> m = e) /\
    (forall dt b, last calls = Some (dt, b) ->
       Material.rack m = EntryInput.rack b /\ Material.bin m = EntryInput.bin b) /\
    status_of <$> fst (recordEntries v calls db) =
      replicate (length calls) (Some 200).
Proof.
  induction calls as [|[dt body] rest IH]; intros db e Hall He.
  - exists e. cbn. split; [done|]. split; [lia|]. split; [done|]. split; [|done].
    intros dt b Hl. discriminate.
  - apply Forall_cons in Hall as [[Hv Hc] Hall]. cbn [snd] in Hv, Hc. subst c.
    cbn [recordEntries].
    pose proof (current_after_entry v body (advance dt db) Hv) as Hcur.
    pose proof (entry_status v body (advance dt db) Hv) as Hst.
    rewrite current_advance, He in Hcur, Hst.
    destruct (recordEntry v body (advance dt db)) as [o db1]. cbn [fst snd] in *.
    destruct (IH db1 _ Hall Hcur) as (m & Hm & Hq & Hnil & Hlast & Hsts).
    destruct (recordEntries v rest db1) as [os db2]. cbn [fst snd] in *.
    exists m. split; [done|]. split; [|split; [done|split]].
    + rewrite Hq, entered_quantity. unfold total_quantity. cbn [foldr snd]. lia.
    + intros dt' b Hl. destruct rest as [|call rest'].
      * cbn in Hl. injection Hl as <- <-. by rewrite (Hnil eq_refl).
      * apply Hlast with dt'. by rewrite last_cons_cons in Hl.
    + cbn. by rewrite Hst, Hsts.
Qed.

End Entries.

(** C3.  A non-empty sequence of valid entry calls for one code that has
    no material yet, on either server, over the integer columns and with
    any time passing between the calls, whose quantities sum to no more
    than the largest integer a column holds: no call throws, afterwards
    the material exists, its quantity is the sum of the entered
    quantities, its rack and bin are those of the last call, the first
    call answered 201 (created) and every later one 200 (updated). *)
Theorem entries_on_fresh_code (v : variant) (c : string)
    (calls : list (Z * EntryInput.t)) (db : Db) :
  calls <> [] ->
  Forall (fun call => valid_entry (snd call) /\
                      EntryInput.materialCode (snd call) = c) calls ->
  current c db = None ->
  total_quantity calls <= IntegerColumns.integer_max ->
  exists m,
    current c (snd (boundedEntries v calls db)) = Some m /\
    Material.quantity m = total_quantity calls /\
    (forall dt b, last calls = Some (dt, b) ->
       Material.rack m = EntryInput.rack b /\ Material.bin m = EntryInput.bin b) /\
    status_of <$> fst (boundedEntries v calls db) =
      Some 201 :: replicate (length calls - 1) (Some 200).
Proof.
  intros Hne Hall Hfresh Hsum.
  rewrite (boundedEntries_agree v c calls db Hall)
    by (unfold balance; rewrite Hfresh; lia).
  destruct calls as [|[dt body] rest]; [done|].
  apply Forall_cons in Hall as [[Hv Hc] Hall]. cbn [snd] in Hv, Hc. subst c.
  cbn [recordEntries].
  pose proof (current_after_entry v body (advance dt db) Hv) as Hcur.
  pose proof (entry_status v body (advance dt db) Hv) as Hst.
  rewrite current_advance, Hfresh in Hcur, Hst.
  destruct (recordEntry v body (advance dt db)) as [o db1]. cbn [fst snd] in *.
  destruct (entries_on_existing v _ rest db1 _ Hall Hcur)
    as (m & Hm & Hq & Hnil & Hlast & Hsts).
  destruct (recordEntries v rest db1) as [os db2]. cbn [fst snd] in *.
  exists m. split; [done|]. split; [|split].
  - rewrite Hq, entered_quantity. unfold total_quantity. cbn [foldr snd]. lia.
  - intros dt' b Hl. destruct rest as [|call rest'].
    + cbn in Hl. injection Hl as <- <-. by rewrite (Hnil eq_refl).
    + apply Hlast with dt'. by rewrite last_cons_cons in Hl.
  - cbn. rewrite Hst, Hsts. by rewrite Nat.sub_0_r.
Qed.

Lemma entries_on_fresh_code_witness :
  exists m,
    current "ZIP-20" (snd (boundedEntries Simple three_entries seeded)) = Some m /\
    Material.quantity m = 70 /\
    (forall dt b, last three_entries = Some (dt, b) ->
       Material.rack m = EntryInput.rack b /\ Material.bin m = EntryInput.bin b) /\
    status_of <$> fst (boundedEntries Simple three_entries seeded) =
      [Some 201; Some 200; Some 200].
Proof.
  apply (entries_on_fresh_code Simple "ZIP-20" three_entries seeded).
  - discriminate.
  - repeat constructor.
  - reflexivity.
  - vm_compute. discriminate.
Defined.

(** Two valid entries for a code without a material whose sum is one
    more than an integer column holds: the first creates the material,
    the second throws at the update, and the quantity stays that of the
    first entry, not the sum. *)
Lemma entries_on_fresh_code_counterexample :
  overflowing_entries <> [] /\
  Forall (fun call => valid_entry (snd call) /\
                      EntryInput.materialCode (snd call) = "BULK-1")
         overflowing_entries /\
  current "BULK-1" seeded = None /\
  total_quantity overflowing_entries = 2147483648 /\
  fst (boundedEntries Strict overflowing_entries seeded) =
    [ Fulfilled (JsonMaterial 201
        (Some (Material.mk "BULK-1" 2147483647 "A1" "01" 1000)));
      Rejected IntegerColumns.out_of_range ] /\
  Material.quantity <$> current "BULK-1"
    (snd (boundedEntries Strict overflowing_entries seeded)) = Some 2147483647 /\
  fst (boundedEntries Simple overflowing_entries seeded) =
    [ Fulfilled (JsonMaterial 201
        (Some (Material.mk "BULK-1" 2147483647 "A1" "01" 1000)));
      Rejected IntegerColumns.out_of_range ] /\
  Material.quantity <$> current "BULK-1"
    (snd (boundedEntries Simple overflowing_entries seeded)) = Some 2147483647.
Proof.
  split; [discriminate|]. split; [repeat constructor|].
  repeat split; vm_compute; reflexivity.
Qed.

(** ** The two servers side by side *)

Section Variants.
Implicit Types (v : variant) (db : Db) (e : Material.t).

Lemma entries_agree body db :
  fst (recordEntry Strict body db) = fst (recordEntry Simple body db) /\
  materials (snd (recordEntry Strict body db)) =
  materials (snd (recordEntry Simple body db)).
Proof.
  destruct (parse_entry_cases body) as [Hv|[field Hf]].
  - by rewrite (entry_run Strict body db Hv), (entry_run Simple body db Hv).
  - by rewrite (entry_invalid Strict body db field Hf),
               (entry_invalid Simple body db field Hf).
Qed.

Lemma simple_records_no_transaction k db :
  binTransactions (snd (perform Simple k db)) = binTransactions db.
Proof.
  destruct k as [body|body]; cbn [perform].
  - by destruct (entry_cases Simple body db).
  - by destruct (issue_cases Simple body db).
Qed.

Lemma strict_records_one_transaction k db s m :
  fst (perform Strict k db) = Fulfilled (JsonMaterial s (Some m)) ->
  exists tx,
    binTransactions (snd (perform Strict k db)) = binTransactions db ++ [tx] /\
    BinTransaction.materialCode tx = call_code k /\
    BinTransaction.binLocation tx = call_rack k +:+ "-" +:+ call_bin k /\
    BinTransaction.receivedQty tx =
      match k with Entry _ => call_quantity k | Issue _ => 0 end /\
    BinTransaction.issuedQty tx =
      match k with Entry _ => 0 | Issue _ => call_quantity k end /\
    BinTransaction.balanceQty tx = Material.quantity m.
Proof.
  destruct k as [body|body]; cbn [perform call_code call_rack call_bin call_quantity].
  - destruct (entry_cases Strict body db) as [field Hf|Hv c now m'];
      cbn [fst snd]; intros Hok; [discriminate|].
    injection Hok as _ <-. eexists. split; [reflexivity|done].
  - destruct (issue_cases Strict body db)
      as [field Hf|Hv He|e Hv He Hstrict Hloc|e Hv He Hloc Hq|e Hv He Hloc Hq now m'];
      cbn [fst snd]; intros Hok; try discriminate.
    injection Hok as _ <-. eexists. split; [reflexivity|done].
Qed.

Lemma simple_issue_ignores_location body db e :
  valid_issue body ->
  current (IssueInput.materialCode body) db = Some e ->
  IssueInput.quantity body <= Material.quantity e ->
  fst (recordIssue Simple body db) =
    Fulfilled (JsonMaterial 200 (Some (issued e body (clock db)))) /\
  current (IssueInput.materialCode body) (snd (recordIssue Simple body db)) =
    Some (issued e body (clock db)) /\
  Material.quantity (issued e body (clock db)) =
    Material.quantity e - IssueInput.quantity body.
Proof.
  intros Hv He Hq. split; [|split; [|done]].
  - by rewrite (issue_run Simple body db e Hv He) by done.
  - by apply current_after_issue.
Qed.

Lemma issues_agree_when_location_matches body db :
  (forall e, current (IssueInput.materialCode body) db = Some e ->
             location_differs e body = false) ->
  fst (recordIssue Strict body db) = fst (recordIssue Simple body db) /\
  materials (snd (recordIssue Strict body db)) =
    materials (snd (recordIssue Simple body db)) /\
  logs (snd (recordIssue Strict body db)) = logs (snd (recordIssue Simple body db)).
Proof.
  intros Hloc. destruct (parse_issue_cases body) as [Hv|[field Hf]].
  2:{ by rewrite (issue_invalid Strict body db field Hf),
                 (issue_invalid Simple body db field Hf). }
  destruct (current (IssueInput.materialCode body) db) as [e|] eqn:He.
  2:{ by rewrite (issue_not_found Strict body db Hv He),
                 (issue_not_found Simple body db Hv He). }
  specialize (Hloc e eq_refl).
  destruct (Z_lt_le_dec (Material.quantity e) (IssueInput.quantity body)) as [Hq|Hq].
  - by rewrite (issue_insufficient Strict body db e Hv He (fun _ => Hloc) Hq),
               (issue_insufficient Simple body db e Hv He (fun _ => Hloc) Hq).
  - by rewrite (issue_run Strict body db e Hv He (fun _ => Hloc) Hq),
               (issue_run Simple body db e Hv He (fun _ => Hloc) Hq).
Qed.

End Variants.

(** C9.  The two servers differ exactly in the location check and in the
    bin transactions.
    - Entries: the same response and the same materials table.
    - The simple server never writes a bin transaction; the strict one
      appends exactly one on every successful entry and issue, with the
      location [rack-bin], the received or issued quantity and the
      balance after the call.
    - The simple issue checks no location: whenever the material exists
      and the quantity suffices it subtracts, whatever rack and bin were
      supplied.
    - The strict issue refuses a differing location and writes nothing.
    - Where the strict location test passes, both issue handlers give the
      same response, materials and logs. *)
Theorem routes_diverge_as_stated :
  (forall body db,
     fst (recordEntry Strict body db) = fst (recordEntry Simple body db) /\
     materials (snd (recordEntry Strict body db)) =
       materials (snd (recordEntry Simple body db))) /\
  (forall k db, binTransactions (snd (perform Simple k db)) = binTransactions db) /\
  (forall k db s m,
     fst (perform Strict k db) = Fulfilled (JsonMaterial s (Some m)) ->
     exists tx,
       binTransactions (snd (perform Strict k db)) = binTransactions db ++ [tx] /\
       BinTransaction.materialCode tx = call_code k /\
       BinTransaction.binLocation tx = call_rack k +:+ "-" +:+ call_bin k /\
       BinTransaction.receivedQty tx =
         match k with Entry _ => call_quantity k | Issue _ => 0 end /\
       BinTransaction.issuedQty tx =
         match k with Entry _ => 0 | Issue _ => call_quantity k end /\
       BinTransaction.balanceQty tx = Material.quantity m) /\
  (forall body db e,
     valid_issue body ->
     current (IssueInput.materialCode body) db = Some e ->
     IssueInput.quantity body <= Material.quantity e ->
     fst (recordIssue Simple body db) =
       Fulfilled (JsonMaterial 200 (Some (issued e body (clock db)))) /\
     current (IssueInput.materialCode body) (snd (recordIssue Simple body db)) =
       Some (issued e body (clock db)) /\
     Material.quantity (issued e body (clock db)) =
       Material.quantity e - IssueInput.quantity body) /\
  (forall body db e,
     valid_issue body ->
     current (IssueInput.materialCode body) db = Some e ->
     location_differs e body = true ->
     recordIssue Strict body db = (Fulfilled (LocationMismatch e), db)) /\
  (forall body db,
     (forall e, current (IssueInput.materialCode body) db = Some e ->
                location_differs e body = false) ->
     fst (recordIssue Strict body db) = fst (recordIssue Simple body db) /\
     materials (snd (recordIssue Strict body db)) =
       materials (snd (recordIssue Simple body db)) /\
     logs (snd (recordIssue Strict body db)) =
       logs (snd (recordIssue Simple body db))).
Proof.
  split; [exact entries_agree|].
  split; [exact simple_records_no_transaction|].
  split; [exact strict_records_one_transaction|].
  split; [exact simple_issue_ignores_location|].
  split; [exact issue_location_mismatch|].
  exact issues_agree_when_location_matches.
Qed.

(** On the seeded store, an issue of 30 from the wrong rack: the simple
    server subtracts, the strict server refuses; from the right rack the
    strict server subtracts too and records its bin transaction. *)
Lemma routes_diverge_as_stated_witness :
  let wrong := IssueInput.mk "TRIM-001" 30 "C9" "77" None in
  let right := IssueInput.mk "TRIM-001" 30 "A1" "01" None in
  let e := Material.mk "TRIM-001" 100 "A1" "01" 1000 in
  (fst (recordIssue Simple wrong seeded) =
     Fulfilled (JsonMaterial 200 (Some (Material.mk "TRIM-001" 70 "A1" "01" 1000))) /\
   current "TRIM-001" (snd (recordIssue Simple wrong seeded)) =
     Some (Material.mk "TRIM-001" 70 "A1" "01" 1000) /\
   70 = 100 - 30) /\
  recordIssue Strict wrong seeded = (Fulfilled (LocationMismatch e), seeded) /\
  (exists tx,
     binTransactions (snd (perform Strict (Issue right) seeded)) =
       binTransactions seeded ++ [tx] /\
     BinTransaction.materialCode tx = "TRIM-001" /\
     BinTransaction.binLocation tx = "A1-01" /\
     BinTransaction.receivedQty tx = 0 /\
     BinTransaction.issuedQty tx = 30 /\
     BinTransaction.balanceQty tx = 70) /\
  (fst (recordIssue Strict right seeded) = fst (recordIssue Simple right seeded) /\
   materials (snd (recordIssue Strict right seeded)) =
     materials (snd (recordIssue Simple right seeded)) /\
   logs (snd (recordIssue Strict right seeded)) =
     logs (snd (recordIssue Simple right seeded))).
Proof.
  intros wrong right e.
  destruct routes_diverge_as_stated as (_ & _ & Htx & Hsimple & Hstrict & Hsame).
  split; [|split; [|split]].
  - apply (Hsimple wrong seeded e); [reflexivity|reflexivity|simpl; lia].
  - apply (Hstrict wrong seeded e); reflexivity.
  - apply (Htx (Issue right) seeded 200 (Material.mk "TRIM-001" 70 "A1" "01" 1000)).
    reflexivity.
  - apply (Hsame right seeded). intros e' He'. vm_compute in He'.
    injection He' as <-. reflexivity.
Defined.

(** ** Strings: prefixes, occurrences and splitting *)

Section Strings.
Implicit Types (s t u p r a b : string) (c sep : ascii).

Lemma append_nil (t : string) : "" +:+ t = t.
Proof. reflexivity. Qed.

Lemma append_cons c (s t : string) : String c s +:+ t = String c (s +:+ t).
Proof. reflexivity. Qed.

Lemma append_assoc (s t u : string) : (s +:+ t) +:+ u = s +:+ (t +:+ u).
Proof.
  induction s as [|c s IH]; [done|]. by rewrite !append_cons, IH.
Qed.

Lemma startsWith_append p s : Js.startsWith (p +:+ s) p = true.
Proof.
  induction p as [|c p IH]; [done|].
  rewrite append_cons. cbn. by rewrite Ascii.eqb_refl, IH.
Qed.

Lemma startsWith_split s p :
  Js.startsWith s p = true -> s = p +:+ Js.drop (String.length p) s.
Proof.
  revert s. induction p as [|c p IH]; intros s Hs; [done|].
  destruct s as [|d s]; [done|]. cbn in Hs.
  apply andb_true_iff in Hs as [Hc Hs]. apply Ascii.eqb_eq in Hc as ->.
  rewrite append_cons. cbn. f_equal. by apply IH.
Qed.

Lemma includes_unfold s p :
  Js.includes s p =
  Js.startsWith s p ||
  match s with EmptyString => false | String _ s' => Js.includes s' p end.
Proof. by destruct s. Qed.

Lemma includes_append a p b : Js.includes (a +:+ p +:+ b) p = true.
Proof.
  induction a as [|c a IH].
  - rewrite append_nil, includes_unfold. by rewrite startsWith_append.
  - rewrite append_cons, includes_unfold, IH. apply orb_true_r.
Qed.

Lemma has_char_append c a b :
  Js.has_char c (a +:+ b) = Js.has_char c a || Js.has_char c b.
Proof.
  induction a as [|d a IH]; [done|].
  rewrite append_cons. cbn. by rewrite IH, orb_assoc.
Qed.

Lemma split_without sep s : Js.has_char sep s = false -> Js.split sep s = [s].
Proof.
  induction s as [|c s IH]; [done|]. cbn. intros Hs.
  apply orb_false_iff in Hs as [Hc Hs]. by rewrite Hc, (IH Hs).
Qed.

Lemma split_at_first sep a b :
  Js.has_char sep a = false ->
  Js.split sep (a +:+ String sep b) = a :: Js.split sep b.
Proof.
  induction a as [|c a IH].
  - intros _. rewrite append_nil. cbn. by rewrite Ascii.eqb_refl.
  - cbn. intros Ha. apply orb_false_iff in Ha as [Hc Ha].
    rewrite append_cons. cbn. by rewrite Hc, (IH Ha).
Qed.

Lemma split_with sep s :
  Js.has_char sep s = true -> exists p0 p1 rest, Js.split sep s = p0 :: p1 :: rest.
Proof.
  induction s as [|c s IH]; [done|]. cbn. intros Hs.
  destruct (Ascii.eqb c sep) eqn:Hc.
  - destruct (Js.split sep s) as [|p ps] eqn:Hsplit; [|by eauto].
    destruct s; cbn in Hsplit; repeat case_match; discriminate.
  - cbn in Hs. destruct (IH Hs) as (p0 & p1 & rest & ->). by eauto.
Qed.

Lemma drop_append p s : Js.drop (String.length p) (p +:+ s) = s.
Proof. induction p as [|c p IH]; [by destruct s|]. by rewrite append_cons. Qed.

Lemma replace_unfold p r s :
  Js.replace p r s =
  if Js.startsWith s p then r +:+ Js.drop (String.length p) s
  else match s with
       | EmptyString => EmptyString
       | String c s' => String c (Js.replace p r s')
       end.
Proof. by destruct s. Qed.

Lemma replace_prefix p r s : Js.replace p r (p +:+ s) = r +:+ s.
Proof. by rewrite replace_unfold, startsWith_append, drop_append. Qed.

End Strings.

(** ** Listing and searching materials *)

#[global] Instance newer_first_total : Total DatabaseStorage.newer_first.
Proof. intros a b. unfold DatabaseStorage.newer_first. lia. Qed.

(** X21.  With no search term, or with the empty one, [getMaterials]
    returns every material of the table, newest [lastUpdated] first, and
    leaves the store as it is. *)
Lemma getMaterials_all (search : option string) (db : Db) :
  search = None \/ search = Some "" ->
  exists found,
    DatabaseStorage.getMaterials search db = (Fulfilled found, db) /\
    found ≡ₚ materials db /\
    Sorted DatabaseStorage.newer_first found.
Proof.
  intros [-> | ->]; eexists; (split; [reflexivity|]); split;
    solve [apply merge_sort_Permutation | apply Sorted_merge_sort, _].
Qed.


Lemma rack_bin_term_parts r b :
  Js.has_char "-" r = false -> Js.has_char "-" b = false ->
  Js.split "-" (rack_bin_term r b) = ["rack:" +:+ r; "bin:" +:+ b].
Proof.
  intros Hr Hb. unfold rack_bin_term.
  change ("-bin:" +:+ b) with (String "-" ("bin:" +:+ b)).
  rewrite <- append_assoc, split_at_first.
  - f_equal. apply split_without. by rewrite has_char_append, Hb.
  - by rewrite has_char_append, Hr.
Qed.

Lemma rack_bin_term_markers r b :
  Js.truthy (rack_bin_term r b) = true /\
  Js.includes (rack_bin_term r b) "rack:" = true /\
  Js.includes (rack_bin_term r b) "bin:" = true.
Proof.
  unfold rack_bin_term. split; [done|]. split.
  - rewrite includes_unfold. by rewrite startsWith_append.
  - change ("rack:" +:+ r +:+ "-bin:" +:+ b)
      with ("rack:" +:+ r +:+ "-" +:+ "bin:" +:+ b).
    rewrite <- (append_assoc r), <- (append_assoc "rack:").
    apply includes_append.
Qed.

(** C5, as the code has it.  For an ASCII term [rack:R-bin:B] whose
    values [R] and [B] contain no hyphen, on a store whose codes, racks
    and bins are ASCII, [getMaterials] returns exactly the materials
    whose rack equals [R] and whose bin equals [B], both up to letter
    case and after trimming the values, newest first. *)
Theorem rack_bin_search (r b : string) (db : Db) :
  Js.is_ascii r = true ->
  Js.is_ascii b = true ->
  ascii_store db ->
  Js.has_char "-" r = false ->
  Js.has_char "-" b = false ->
  exists found,
    DatabaseStorage.getMaterials (Some (rack_bin_term r b)) db = (Fulfilled found, db) /\
    found ≡ₚ filter (fun m => caseless_eq (Material.rack m) (Js.trim r) /\
                              caseless_eq (Material.bin m) (Js.trim b))
                    (materials db) /\
    Sorted DatabaseStorage.newer_first found.
Proof.
  intros _ _ _ Hr Hb. destruct (rack_bin_term_markers r b) as (Ht & Hrack & Hbin).
  unfold DatabaseStorage.getMaterials.
  rewrite Ht, Hrack, Hbin, (rack_bin_term_parts r b Hr Hb).
  cbn [andb DatabaseStorage.part lookup list_lookup].
  rewrite !replace_prefix, !append_nil.
  eexists. split; [reflexivity|]. split.
  - unfold DatabaseStorage.orderByLastUpdatedDesc.
    rewrite merge_sort_Permutation.
    erewrite list_filter_iff; [reflexivity|]. intros m.
    unfold DatabaseStorage.rack_bin_is, caseless_eq. tauto.
  - apply Sorted_merge_sort, _.
Qed.

Lemma seeded_ascii : ascii_store seeded.
Proof. repeat constructor. Qed.

Lemma rack_bin_search_witness :
  exists found,
    DatabaseStorage.getMaterials (Some "rack:a1-bin:01") seeded = (Fulfilled found, seeded) /\
    found ≡ₚ filter (fun m => caseless_eq (Material.rack m) "a1" /\
                              caseless_eq (Material.bin m) "01")
                    (materials seeded) /\
    Sorted DatabaseStorage.newer_first found.
Proof.
  apply (rack_bin_search "a1" "01" seeded);
    [reflexivity | reflexivity | apply seeded_ascii | reflexivity | reflexivity].
Defined.

(** C5 as stated fails on terms that hold both markers joined by a
    hyphen but are not of the shape the parser assumes.  With the
    markers in the other order the material at rack A1, bin 01 is not
    found.  With a hyphen inside the rack value, the term for rack A1-01
    and bin 77 returns the material at rack A1, bin 01, which has
    neither that rack nor that bin. *)
Lemma rack_bin_search_counterexample :
  (Js.includes "bin:01-rack:A1" "rack:" = true /\
   Js.includes "bin:01-rack:A1" "bin:" = true /\
   current "TRIM-001" seeded = Some (Material.mk "TRIM-001" 100 "A1" "01" 1000) /\
   DatabaseStorage.getMaterials (Some "bin:01-rack:A1") seeded = (Fulfilled [], seeded)) /\
  DatabaseStorage.getMaterials (Some (rack_bin_term "A1-01" "77")) seeded =
    (Fulfilled [Material.mk "TRIM-001" 100 "A1" "01" 1000], seeded).
Proof. repeat split. Qed.

(** C6 fails on the code.  For every search term that holds both markers
    and no hyphen, on every store, [parts[1]] is undefined and
    [getMaterials] throws a TypeError instead of returning a list of
    materials. *)
Theorem getMaterials_throws_without_hyphen (search : string) (db : Db) :
  Js.includes search "rack:" = true ->
  Js.includes search "bin:" = true ->
  Js.has_char "-" search = false ->
  DatabaseStorage.getMaterials (Some search) db =
  (Rejected (TypeError "Cannot read properties of undefined (reading 'replace')"),
   db).
Proof.
  intros Hrack Hbin Hhyphen. unfold DatabaseStorage.getMaterials.
  assert (Js.truthy search = true) as -> by (by destruct search).
  rewrite Hrack, Hbin, (split_without "-" search Hhyphen). reflexivity.
Qed.

Lemma getMaterials_throws_without_hyphen_witness :
  DatabaseStorage.getMaterials (Some "rack:A1 bin:01") seeded =
  (Rejected (TypeError "Cannot read properties of undefined (reading 'replace')"),
   seeded).
Proof.
  apply (getMaterials_throws_without_hyphen "rack:A1 bin:01" seeded); reflexivity.
Defined.

(** X22.  [getMaterials] throws on exactly the terms that hold both
    markers and no hyphen; on every other term, and without a term, it
    returns a list. *)
Lemma getMaterials_throws_iff (search : option string) (db : Db) :
  (exists e, fst (DatabaseStorage.getMaterials search db) = Rejected e) <->
  (exists s, search = Some s /\
             Js.includes s "rack:" = true /\ Js.includes s "bin:" = true /\
             Js.has_char "-" s = false).
Proof.
  unfold DatabaseStorage.getMaterials, DatabaseStorage.part. split.
  - intros [e He]. destruct search as [s|]; [|discriminate].
    exists s. split; [done|].
    destruct (Js.truthy s); [|discriminate].
    destruct (Js.includes s "rack:" && Js.includes s "bin:") eqn:Hm.
    + apply andb_true_iff in Hm as [-> ->]. repeat split.
      destruct (Js.has_char "-" s) eqn:Hh; [|done].
      destruct (split_with "-" s Hh) as (p0 & p1 & rest & Hs).
      rewrite Hs in He. discriminate.
    + destruct (Js.startsWith s "rack:") eqn:Hsw; [|discriminate].
      assert (Js.has_char ":" s = true) as Hc.
      { rewrite (startsWith_split _ _ Hsw), has_char_append. done. }
      destruct (split_with ":" s Hc) as (p0 & p1 & rest & Hs).
      rewrite Hs in He. discriminate.
  - intros (s & -> & Hrack & Hbin & Hh).
    assert (Js.truthy s = true) as -> by (by destruct s).
    rewrite Hrack, Hbin, (split_without "-" s Hh). by eexists.
Qed.

(** ** Looking up, deleting and resetting materials *)

Section Lookup.
Implicit Types (v : variant) (db : Db) (c : string).

Lemma getMaterial_run v c db :
  getMaterial v c db =
  (Fulfilled match current c db with
             | Some m => JsonMaterial 200 (Some m)
             | None => NotFound
             end, db).
Proof.
  destruct v; unfold getMaterial, StrictRoutes.materials_get,
    SimpleRoutes.materials_get, simple_storage; step;
    by destruct (current c db).
Qed.

Lemma removeMaterial_run v c db :
  removeMaterial v c db =
  (Fulfilled (JsonMessage 200 "Material deleted"),
   DatabaseStorage.set_materials
     (filter (fun m => ~ DatabaseStorage.has_code c m)) db).
Proof. by destruct v. Qed.

Lemma resetAll_run v db :
  resetAll v db =
  (Fulfilled (JsonMessage 200 "Inventory reset"),
   DatabaseStorage.set_materials (fmap (DatabaseStorage.zeroed (clock db))) db).
Proof. by destruct v. Qed.

Lemma clearAllLogs_run v db :
  clearAllLogs v db =
  (Fulfilled (JsonMessage 200 "Logs cleared"),
   DatabaseStorage.set_logs (fun _ => []) db).
Proof. by destruct v. Qed.

Lemma current_deleted c db :
  current c (DatabaseStorage.set_materials
               (filter (fun m => ~ DatabaseStorage.has_code c m)) db) = None.
Proof.
  unfold current. cbn. rewrite list_filter_filter. apply head_None.
  induction (materials db) as [|m rows IH]; [done|].
  rewrite filter_cons. destruct (decide _) as [[? ?]|]; [done|exact IH].
Qed.

Lemma current_deleted_other c c' db :
  c' <> c ->
  current c' (DatabaseStorage.set_materials
                (filter (fun m => ~ DatabaseStorage.has_code c m)) db) =
  current c' db.
Proof.
  intros Hc. unfold current. cbn. rewrite list_filter_filter. f_equal.
  apply list_filter_iff. intros m. unfold DatabaseStorage.has_code.
  split; [tauto|]. intros Hm. split; [done|congruence].
Qed.

Lemma current_reset c db :
  current c (DatabaseStorage.set_materials
               (fmap (DatabaseStorage.zeroed (clock db))) db) =
  DatabaseStorage.zeroed (clock db) <$> current c db.
Proof.
  unfold current. cbn. rewrite <- head_fmap. f_equal.
  induction (materials db) as [|m rows IH]; [done|].
  rewrite fmap_cons, !filter_cons.
  destruct (decide (DatabaseStorage.has_code c (DatabaseStorage.zeroed (clock db) m)))
    as [H1|H1];
    destruct (decide (DatabaseStorage.has_code c m)) as [H2|H2];
    rewrite ?fmap_cons, IH; done.
Qed.

End Lookup.

(** X1.  Deleting a material always answers 200, whether the code existed
    or not.  Afterwards a lookup of that code answers 404, a lookup of
    any other code answers what it answered before, and the logs and bin
    transactions are the same as before: nothing cascades. *)
Theorem delete_then_lookup (v : variant) (c : string) (db : Db) :
  let db' := snd (removeMaterial v c db) in
  fst (removeMaterial v c db) = Fulfilled (JsonMessage 200 "Material deleted") /\
  getMaterial v c db' = (Fulfilled NotFound, db') /\
  (forall c', c' <> c -> fst (getMaterial v c' db') = fst (getMaterial v c' db)) /\
  logs db' = logs db /\
  binTransactions db' = binTransactions db.
Proof.
  rewrite removeMaterial_run. cbn [fst snd]. split; [done|]. split; [|split].
  - by rewrite getMaterial_run, current_deleted.
  - intros c' Hc. by rewrite !getMaterial_run, current_deleted_other.
  - done.
Qed.

(** X2.  A material that was deleted and is entered again starts afresh:
    over the integer columns, for an entered quantity that a column
    holds, the entry answers 201 and the quantity is exactly the entered
    one, whatever the stock was before the deletion. *)
Theorem entry_after_delete_creates (v : variant) (body : EntryInput.t) (db : Db) :
  valid_entry body ->
  EntryInput.quantity body <= IntegerColumns.integer_max ->
  let c := EntryInput.materialCode body in
  let db1 := snd (removeMaterial v c db) in
  exists m,
    fst (boundedEntry v body db1) = Fulfilled (JsonMaterial 201 (Some m)) /\
    current c (snd (boundedEntry v body db1)) = Some m /\
    Material.quantity m = EntryInput.quantity body /\
    Material.rack m = EntryInput.rack body /\
    Material.bin m = EntryInput.bin body.
Proof.
  intros Hv Hmax c db1. subst c.
  assert (current (EntryInput.materialCode body) db1 = None) as Hnone.
  { subst db1. rewrite removeMaterial_run. apply current_deleted. }
  rewrite (boundedEntry_agrees v body db1 Hv)
    by (unfold balance; rewrite Hnone; lia).
  exists (entered None body (clock db1)).
  rewrite (current_after_entry v body db1 Hv), (entry_run v body db1 Hv).
  rewrite Hnone. done.
Qed.

Lemma entry_after_delete_creates_witness :
  let body := EntryInput.mk "TRIM-001" 7 "D4" "12" None in
  let db1 := snd (removeMaterial Strict "TRIM-001" seeded) in
  exists m,
    fst (boundedEntry Strict body db1) = Fulfilled (JsonMaterial 201 (Some m)) /\
    current "TRIM-001" (snd (boundedEntry Strict body db1)) = Some m /\
    Material.quantity m = 7 /\
    Material.rack m = "D4" /\
    Material.bin m = "12".
Proof.
  apply (entry_after_delete_creates Strict
           (EntryInput.mk "TRIM-001" 7 "D4" "12" None) seeded).
  - reflexivity.
  - vm_compute. discriminate.
Defined.

(** X3.  After a reset nothing can be issued: every valid issue for a
    material that exists is refused with status 400 on both servers, and
    the refusal writes nothing.  The reset itself always answers 200. *)
Theorem issue_after_reset_refused (v : variant) (body : IssueInput.t) (db : Db)
    (e : Material.t) :
  valid_issue body ->
  current (IssueInput.materialCode body) db = Some e ->
  let db1 := snd (resetAll v db) in
  fst (resetAll v db) = Fulfilled (JsonMessage 200 "Inventory reset") /\
  exists r, recordIssue v body db1 = (Fulfilled r, db1) /\ status r = 400.
Proof.
  intros Hv He db1. subst db1. rewrite resetAll_run. cbn [fst snd].
  split; [done|].
  set (db1 := DatabaseStorage.set_materials _ db).
  assert (current (IssueInput.materialCode body) db1 =
          Some (DatabaseStorage.zeroed (clock db) e)) as He1.
  { subst db1. by rewrite current_reset, He. }
  destruct (valid_issue_fields body Hv) as (_ & Hq & _).
  destruct (issue_cases v body db1)
    as [field Hf|Hv' He'|e' Hv' He' Hstrict Hloc|e' Hv' He' Hloc Hq'
        |e' Hv' He' Hloc Hq' now m].
  - unfold valid_issue in Hv. congruence.
  - congruence.
  - by eexists.
  - by eexists.
  - rewrite He1 in He'. injection He' as <-. cbn in Hq'. lia.
Qed.

Lemma issue_after_reset_refused_witness :
  let body := IssueInput.mk "TRIM-001" 1 "A1" "01" None in
  let db1 := snd (resetAll Simple seeded) in
  fst (resetAll Simple seeded) = Fulfilled (JsonMessage 200 "Inventory reset") /\
  exists r, recordIssue Simple body db1 = (Fulfilled r, db1) /\ status r = 400.
Proof.
  apply (issue_after_reset_refused Simple
           (IssueInput.mk "TRIM-001" 1 "A1" "01" None) seeded
           (Material.mk "TRIM-001" 100 "A1" "01" 1000));
    reflexivity.
Defined.

(** ** Logs and dashboard figures *)

#[global] Instance log_newer_first_total : Total DatabaseStorage.log_newer_first.
Proof. intros a b. unfold DatabaseStorage.log_newer_first. lia. Qed.

#[global] Instance log_newer_first_trans : Transitive DatabaseStorage.log_newer_first.
Proof. intros a b c. unfold DatabaseStorage.log_newer_first. lia. Qed.

(** X4.  [getLogs] returns the most recent logs, newest first, and as
    many of them as the limit allows (50 when no limit is given): the
    logs left out are none of them newer than a log returned.  The store
    is not touched. *)
Theorem getLogs_most_recent (limit : option nat) (db : Db) :
  exists found rest,
    DatabaseStorage.getLogs limit db = (Fulfilled found, db) /\
    length found = Nat.min (default 50%nat limit) (length (logs db)) /\
    found ++ rest ≡ₚ logs db /\
    Sorted DatabaseStorage.log_newer_first found /\
    (forall x y, x ∈ found -> y ∈ rest -> Log.timestamp y <= Log.timestamp x).
Proof.
  set (n := default 50%nat limit).
  set (sorted := merge_sort DatabaseStorage.log_newer_first (logs db)).
  assert (StronglySorted DatabaseStorage.log_newer_first
            (take n sorted ++ drop n sorted)) as Hsorted.
  { rewrite take_drop. apply StronglySorted_merge_sort; apply _. }
  exists (take n sorted), (drop n sorted).
  split; [reflexivity|]. split; [|split; [|split]].
  - rewrite length_take. subst sorted. by rewrite merge_sort_Permutation.
  - rewrite take_drop. apply merge_sort_Permutation.
  - by apply StronglySorted_app_1_l, StronglySorted_Sorted in Hsorted.
  - intros x y Hx Hy.
    apply (StronglySorted_app_1_elem_of _ _ _ x y Hsorted Hx Hy).
Qed.

Section Stats.
Variable startOfDay : Z -> Z.
Implicit Types (v : variant) (db : Db).

Lemma getDashboardStats_run db :
  Dashboard.getDashboardStats startOfDay db =
  (Fulfilled
     (DashboardStats.mk
        (length (materials db))
        (length (filter (Dashboard.logged_since entry (startOfDay (clock db)))
                        (logs db)))
        (length (filter (Dashboard.logged_since issue (startOfDay (clock db)))
                        (logs db)))
        (take 10 (merge_sort DatabaseStorage.log_newer_first (logs db)))),
   db).
Proof. reflexivity. Qed.

Lemma count_one_more a today (rows : list Log.t) (l : Log.t) :
  today <= Log.timestamp l ->
  length (filter (Dashboard.logged_since a today) (rows ++ [l])) =
  (length (filter (Dashboard.logged_since a today) rows) +
   if decide (Log.action l = a) then 1 else 0)%nat.
Proof.
  intros Hts. rewrite filter_app, length_app. f_equal.
  rewrite filter_cons, filter_nil.
  destruct (decide (Dashboard.logged_since a today l)) as [[Ha _]|Hno];
    destruct (decide (Log.action l = a)) as [Ha'|Ha']; try done.
  exfalso. apply Hno. by split.
Qed.

End Stats.

(** X6.  The dashboard counts a successful call at once: taken right
    after a successful entry (issue), [enteredToday] ([issuedToday]) is
    one more than right before and the other count is the same;
    [totalMaterials] grows by one exactly when the entry created the
    material (status 201); [recentLogs] never holds more than 10 logs.
    [startOfDay] is any function that does not return a later time. *)
Theorem stats_count_successful_call (startOfDay : Z -> Z) (v : variant)
    (k : call) (db : Db) (s : Z) (m : option Material.t) :
  startOfDay (clock db) <= clock db ->
  fst (perform v k db) = Fulfilled (JsonMaterial s m) ->
  let db' := snd (perform v k db) in
  exists before after,
    Dashboard.getDashboardStats startOfDay db = (Fulfilled before, db) /\
    Dashboard.getDashboardStats startOfDay db' = (Fulfilled after, db') /\
    DashboardStats.enteredToday after =
      (DashboardStats.enteredToday before +
       match k with Entry _ => 1 | Issue _ => 0 end)%nat /\
    DashboardStats.issuedToday after =
      (DashboardStats.issuedToday before +
       match k with Entry _ => 0 | Issue _ => 1 end)%nat /\
    DashboardStats.totalMaterials after =
      (DashboardStats.totalMaterials before + if (s =? 201)%Z then 1 else 0)%nat /\
    (length (DashboardStats.recentLogs after) <= 10)%nat.
Proof.
  intros Hday Hok db'. subst db'.
  do 2 eexists. rewrite !getDashboardStats_run.
  split; [reflexivity|]. split; [reflexivity|].
  cbn [DashboardStats.enteredToday DashboardStats.issuedToday
       DashboardStats.totalMaterials DashboardStats.recentLogs].
  destruct k as [body|body]; cbn [perform] in *.
  - destruct (entry_cases v body db) as [field Hf|Hv c now e];
      cbn [fst snd logs materials clock] in *; [discriminate|].
    assert (s = created_or_updated (current c db)) as -> by congruence.
    do 2 (rewrite count_one_more by exact Hday). cbn [entry_log Log.action].
    rewrite decide_True by done. rewrite decide_False by done.
    repeat split; try lia.
    + destruct (current c db); cbn [entered_table created_or_updated Z.eqb Pos.eqb].
      * rewrite length_fmap. lia.
      * rewrite length_app. cbn. lia.
    + rewrite length_take. lia.
  - destruct (issue_cases v body db)
      as [field Hf|Hv He|e Hv He Hstrict Hloc|e Hv He Hloc Hq|e Hv He Hloc Hq now m'];
      cbn [fst snd logs materials clock] in *; try discriminate.
    assert (s = 200) as -> by congruence.
    do 2 (rewrite count_one_more by exact Hday). cbn [issue_log Log.action].
    rewrite decide_False by done. rewrite decide_True by done.
    repeat split; try lia.
    + rewrite length_fmap. cbn. lia.
    + rewrite length_take. lia.
Qed.

Lemma stats_count_successful_call_witness :
  let k := Entry (EntryInput.mk "ZIP-20" 40 "A1" "01" None) in
  let db' := snd (perform Strict k seeded) in
  exists before after,
    Dashboard.getDashboardStats utc_midnight seeded = (Fulfilled before, seeded) /\
    Dashboard.getDashboardStats utc_midnight db' = (Fulfilled after, db') /\
    DashboardStats.enteredToday after =
      (DashboardStats.enteredToday before + 1)%nat /\
    DashboardStats.issuedToday after =
      (DashboardStats.issuedToday before + 0)%nat /\
    DashboardStats.totalMaterials after =
      (DashboardStats.totalMaterials before + 1)%nat /\
    (length (DashboardStats.recentLogs after) <= 10)%nat.
Proof.
  apply (stats_count_successful_call utc_midnight Strict
           (Entry (EntryInput.mk "ZIP-20" 40 "A1" "01" None)) seeded 201
           (Some (Material.mk "ZIP-20" 40 "A1" "01" 1000))).
  - vm_compute. discriminate.
  - reflexivity.
Defined.

(** ** Patterns without wildcards *)

Section Like.
Implicit Types (p s : string) (c : ascii).

Lemma like_percent p s :
  like (String "%" p) s =
  like p s ||
  match s with
  | EmptyString => false
  | String _ s' => like (String "%" p) s'
  end.
Proof. by destruct s. Qed.

Lemma like_any s : like "%" s = true.
Proof.
  induction s as [|c s IH]; [done|].
  rewrite like_percent, IH. apply orb_true_r.
Qed.

Lemma like_literal_char c p s :
  is_wildcard c = false ->
  like (String c p) s =
  match s with
  | EmptyString => false
  | String a s' => Ascii.eqb a c && like p s'
  end.
Proof.
  unfold is_wildcard. intros Hc.
  apply orb_false_iff in Hc as [Hc Hc3]. apply orb_false_iff in Hc as [Hc1 Hc2].
  cbn [like]. by rewrite Hc1, Hc2, Hc3.
Qed.

Lemma ascii_eqb_sym c d : Ascii.eqb c d = Ascii.eqb d c.
Proof.
  destruct (Ascii.eqb_spec c d) as [->|Hne].
  - by rewrite Ascii.eqb_refl.
  - symmetry. by apply Ascii.eqb_neq.
Qed.

(** A literal value followed by [%] is a prefix test. *)
Lemma like_prefix p s :
  literal p = true -> like (p +:+ "%") s = Js.startsWith s p.
Proof.
  revert s. induction p as [|c p IH]; intros s Hp.
  - rewrite append_nil. apply like_any.
  - cbn in Hp. apply andb_true_iff in Hp as [Hc Hp].
    apply negb_true_iff in Hc.
    rewrite append_cons, like_literal_char by done.
    destruct s as [|a s]; [done|]. cbn [Js.startsWith].
    by rewrite IH, ascii_eqb_sym.
Qed.

(** A literal value between two [%] is an occurrence test. *)
Lemma like_infix p s :
  literal p = true -> like ("%" +:+ p +:+ "%") s = Js.includes s p.
Proof.
  intros Hp. change ("%" +:+ p +:+ "%") with (String "%" (p +:+ "%")).
  induction s as [|a s IH].
  - by rewrite like_percent, like_prefix, includes_unfold.
  - by rewrite like_percent, like_prefix, includes_unfold, IH.
Qed.

Lemma is_wildcard_downcase c : is_wildcard (Js.downcase c) = is_wildcard c.
Proof. destruct c as [[] [] [] [] [] [] [] []]; reflexivity. Qed.

Lemma literal_toLowerCase p : literal (Js.toLowerCase p) = literal p.
Proof.
  induction p as [|c p IH]; [done|].
  cbn. by rewrite is_wildcard_downcase, IH.
Qed.

Lemma literal_trimStart p : literal p = true -> literal (Js.trimStart p) = true.
Proof.
  induction p as [|c p IH]; [done|]. intros Hp. cbn.
  destruct (Js.is_space c); [|done].
  cbn in Hp. apply andb_true_iff in Hp as [_ Hp]. by apply IH.
Qed.

Lemma literal_trimEnd p : literal p = true -> literal (Js.trimEnd p) = true.
Proof.
  induction p as [|c p IH]; [done|]. intros Hp.
  cbn in Hp. apply andb_true_iff in Hp as [Hc Hp]. specialize (IH Hp).
  cbn. destruct (Js.trimEnd p) as [|d t].
  - destruct (Js.is_space c); [done|]. cbn. by rewrite Hc.
  - cbn [literal]. by rewrite Hc.
Qed.

Lemma literal_trim p : literal p = true -> literal (Js.trim p) = true.
Proof. intros Hp. by apply literal_trimEnd, literal_trimStart. Qed.

Lemma toLowerCase_append s t :
  Js.toLowerCase (s +:+ t) = Js.toLowerCase s +:+ Js.toLowerCase t.
Proof.
  induction s as [|c s IH]; [done|].
  rewrite append_cons. cbn. by rewrite append_cons, <- IH.
Qed.

End Like.

(** X7.  The rack-prefix search.  For an ASCII term [rack:R] that does
    not hold the [bin:] marker, with a value [R] free of colons and of
    the wildcards of [LIKE], on a store whose codes, racks and bins are
    ASCII, [getMaterials] returns exactly the materials whose rack starts
    with [R], up to letter case and after trimming [R], newest first. *)
Theorem rack_prefix_search (r : string) (db : Db) :
  Js.is_ascii r = true ->
  ascii_store db ->
  Js.includes ("rack:" +:+ r) "bin:" = false ->
  Js.has_char ":" r = false ->
  literal r = true ->
  exists found,
    DatabaseStorage.getMaterials (Some ("rack:" +:+ r)) db = (Fulfilled found, db) /\
    found ≡ₚ filter (fun m => Js.startsWith (Js.toLowerCase (Material.rack m))
                                            (Js.toLowerCase (Js.trim r)) = true)
                    (materials db) /\
    Sorted DatabaseStorage.newer_first found.
Proof.
  intros _ _ Hbin Hcolon Hlit. unfold DatabaseStorage.getMaterials.
  assert (Js.truthy ("rack:" +:+ r) = true) as -> by done.
  rewrite Hbin, andb_false_r.
  rewrite (startsWith_append "rack:" r).
  change ("rack:" +:+ r) with ("rack" +:+ String ":" r).
  rewrite split_at_first by done. rewrite (split_without ":" r Hcolon).
  cbn [DatabaseStorage.part lookup list_lookup].
  eexists. split; [reflexivity|]. split.
  - unfold DatabaseStorage.orderByLastUpdatedDesc.
    rewrite merge_sort_Permutation.
    erewrite list_filter_iff; [reflexivity|]. intros m.
    unfold DatabaseStorage.rack_like.
    rewrite like_prefix; [done|].
    rewrite literal_toLowerCase. by apply literal_trim.
  - apply Sorted_merge_sort, _.
Qed.

Lemma rack_prefix_search_witness :
  exists found,
    DatabaseStorage.getMaterials (Some "rack: b") seeded = (Fulfilled found, seeded) /\
    found ≡ₚ filter (fun m => Js.startsWith (Js.toLowerCase (Material.rack m))
                                            "b" = true)
                    (materials seeded) /\
    Sorted DatabaseStorage.newer_first found.
Proof.
  apply (rack_prefix_search " b" seeded); try reflexivity.
  repeat constructor.
Defined.

(** X8.  The free-text search.  For a non-empty ASCII term that does not
    hold both markers, does not start with [rack:] and has none of the
    wildcards of [LIKE], on a store whose codes, racks and bins are
    ASCII, [getMaterials] returns exactly the materials whose code, rack,
    bin or [rack-bin] location contains the term, up to letter case, each
    once and in an order that is the store's own. *)
Theorem free_text_search (search : string) (db : Db) :
  Js.is_ascii search = true ->
  ascii_store db ->
  Js.truthy search = true ->
  Js.includes search "rack:" && Js.includes search "bin:" = false ->
  Js.startsWith search "rack:" = false ->
  literal search = true ->
  exists found,
    DatabaseStorage.getMaterials (Some search) db = (Fulfilled found, db) /\
    found ≡ₚ
      filter (fun m =>
                let term := Js.toLowerCase search in
                Js.includes (Js.toLowerCase (Material.code m)) term = true \/
                Js.includes (Js.toLowerCase (Material.rack m)) term = true \/
                Js.includes (Js.toLowerCase (Material.bin m)) term = true \/
                Js.includes (Js.toLowerCase (Material.rack m +:+ "-" +:+
                                             Material.bin m)) term = true)
             (materials db).
Proof.
  intros _ _ Ht Hm Hs Hlit. unfold DatabaseStorage.getMaterials.
  rewrite Ht, Hm, Hs. unfold read. eexists. split; [reflexivity|].
  erewrite list_filter_iff; [reflexivity|].
  intros m. unfold DatabaseStorage.any_like.
  cbv zeta.
  assert (Js.toLowerCase ("%" +:+ search +:+ "%") =
          "%" +:+ Js.toLowerCase search +:+ "%") as ->.
  { by rewrite !toLowerCase_append. }
  by rewrite !like_infix by (by rewrite literal_toLowerCase).
Qed.

Lemma free_text_search_witness :
  exists found,
    DatabaseStorage.getMaterials (Some "1-8") seeded = (Fulfilled found, seeded) /\
    found ≡ₚ
      filter (fun m =>
                Js.includes (Js.toLowerCase (Material.code m)) "1-8" = true \/
                Js.includes (Js.toLowerCase (Material.rack m)) "1-8" = true \/
                Js.includes (Js.toLowerCase (Material.bin m)) "1-8" = true \/
                Js.includes (Js.toLowerCase (Material.rack m +:+ "-" +:+
                                             Material.bin m)) "1-8" = true)
             (materials seeded).
Proof.
  apply (free_text_search "1-8" seeded); try reflexivity.
  repeat constructor.
Defined.

Lemma elem_of_ordered (rows : list Material.t) m :
  m ∈ DatabaseStorage.orderByLastUpdatedDesc rows <-> m ∈ rows.
Proof.
  unfold DatabaseStorage.orderByLastUpdatedDesc.
  by rewrite merge_sort_Permutation.
Qed.

(** X9.  Whatever the search term, [getMaterials] leaves the store as it
    is, also when it throws, and a list it returns holds only rows of
    the materials table, never more of them than the table has. *)
Theorem getMaterials_only_reads (search : option string) (db : Db) :
  snd (DatabaseStorage.getMaterials search db) = db /\
  forall found,
    fst (DatabaseStorage.getMaterials search db) = Fulfilled found ->
    (forall m, m ∈ found -> m ∈ materials db) /\
    (length found <= length (materials db))%nat.
Proof.
  unfold DatabaseStorage.getMaterials, DatabaseStorage.orderByLastUpdatedDesc.
  repeat case_match; (split; [reflexivity|]); cbn; intros found Hf;
    try discriminate; injection Hf as <-;
    rewrite ?merge_sort_Permutation; (split; [|by apply length_filter || done]);
    intros m Hm; rewrite ?merge_sort_Permutation in Hm;
    try apply list_elem_of_filter in Hm as [_ Hm]; done.
Qed.

(** ** What a call leaves alone, and what it gives back *)

Section Frames.
Implicit Types (v : variant) (db : Db) (c : string) (e : Material.t).

Lemma current_created_other c c' db (m : Material.t) :
  Material.code m = c -> c' <> c ->
  current c' (DatabaseStorage.set_materials (fun rows => rows ++ [m]) db) =
  current c' db.
Proof.
  intros Hm Hc. unfold current, DatabaseStorage.set_materials. cbn.
  rewrite filter_app, filter_cons_False, filter_nil, app_nil_r; [done|].
  unfold DatabaseStorage.has_code. congruence.
Qed.

Lemma entry_other_codes v body db c' :
  c' <> EntryInput.materialCode body ->
  current c' (snd (recordEntry v body db)) = current c' db.
Proof.
  intros Hc. destruct (entry_cases v body db) as [field Hf|Hv c now m]; [done|].
  cbn [snd]. destruct (current c db) as [e|] eqn:He; cbn [entered_table].
  - etrans; [|exact (current_updated_other c c' (entry_updates e body) db
                       eq_refl Hc)].
    by apply current_materials.
  - etrans; [|exact (current_created_other c c' db (entered None body now)
                       eq_refl Hc)].
    by apply current_materials.
Qed.

Lemma issue_other_codes v body db c' :
  c' <> IssueInput.materialCode body ->
  current c' (snd (recordIssue v body db)) = current c' db.
Proof.
  intros Hc.
  destruct (issue_cases v body db)
    as [field Hf|Hv He|e Hv He Hstrict Hloc|e Hv He Hloc Hq|e Hv He Hloc Hq now m];
    try done.
  cbn [snd].
  etrans; [|exact (current_updated_other (IssueInput.materialCode body) c'
                     (issue_updates e body) db eq_refl Hc)].
  by apply current_materials.
Qed.

Lemma valid_entry_issue body :
  valid_entry body ->
  valid_issue (IssueInput.mk (EntryInput.materialCode body)
                 (EntryInput.quantity body) (EntryInput.rack body)
                 (EntryInput.bin body) (EntryInput.enteredBy body)).
Proof.
  unfold valid_entry, valid_issue, parse_entry, parse_issue. cbn.
  by destruct check_fields.
Qed.

End Frames.

(** X10.  A successful issue, on either server, takes exactly the
    requested quantity off the material and changes nothing else of it:
    code, rack and bin stay, [lastUpdated] becomes the time of the call,
    the new quantity is not negative, and the response is the 200 with
    that row. *)
Theorem successful_issue_exact (v : variant) (body : IssueInput.t) (db : Db)
    (s : Z) (m : option Material.t) :
  fst (recordIssue v body db) = Fulfilled (JsonMaterial s m) ->
  let c := IssueInput.materialCode body in
  exists e m',
    current c db = Some e /\
    s = 200 /\ m = Some m' /\
    current c (snd (recordIssue v body db)) = Some m' /\
    Material.quantity m' = Material.quantity e - IssueInput.quantity body /\
    0 <= Material.quantity m' /\
    Material.code m' = Material.code e /\
    Material.rack m' = Material.rack e /\
    Material.bin m' = Material.bin e /\
    Material.lastUpdated m' = clock db.
Proof.
  intros Hok c. subst c.
  pose proof (issue_cases v body db) as Hc.
  inversion Hc as [field Hf Hrun|Hv He Hrun|e Hv He Hstrict Hloc Hrun
                   |e Hv He Hloc Hq Hrun|e Hv He Hloc Hq now m' Hrun];
    try (rewrite <- Hrun in Hok; discriminate).
  pose proof (current_after_issue v body db e Hv He Hloc Hq) as Hcur.
  rewrite <- Hrun in Hok. cbn [fst] in Hok.
  exists e, m'. split; [done|]. split; [congruence|]. split; [congruence|].
  split; [rewrite Hrun; exact Hcur|]. subst m'. cbn. repeat split; lia.
Qed.

Lemma successful_issue_exact_witness :
  exists e m',
    current "BUTTON-X" seeded = Some e /\
    200 = 200 /\ Some (Material.mk "BUTTON-X" 0 "C1" "84" 1000) = Some m' /\
    current "BUTTON-X"
      (snd (recordIssue Strict (IssueInput.mk "BUTTON-X" 500 "c1" "84" None) seeded))
      = Some m' /\
    Material.quantity m' = Material.quantity e - 500 /\
    0 <= Material.quantity m' /\
    Material.code m' = Material.code e /\
    Material.rack m' = Material.rack e /\
    Material.bin m' = Material.bin e /\
    Material.lastUpdated m' = 1000.
Proof.
  apply (successful_issue_exact Strict
           (IssueInput.mk "BUTTON-X" 500 "c1" "84" None) seeded 200
           (Some (Material.mk "BUTTON-X" 0 "C1" "84" 1000))).
  reflexivity.
Defined.

(** X11.  An entry or an issue for one code, accepted or refused, on
    either server, leaves the material of every other code exactly as it
    was. *)
Theorem call_leaves_other_codes (v : variant) (k : call) (db : Db) (c' : string) :
  c' <> call_code k ->
  current c' (snd (perform v k db)) = current c' db.
Proof.
  destruct k as [body|body]; cbn [call_code perform].
  - apply entry_other_codes.
  - apply issue_other_codes.
Qed.

Lemma call_leaves_other_codes_witness :
  current "TRIM-002"
    (snd (perform Simple (Entry (EntryInput.mk "TRIM-001" 9 "Z9" "09" None)) seeded))
  = current "TRIM-002" seeded.
Proof.
  apply (call_leaves_other_codes Simple
           (Entry (EntryInput.mk "TRIM-001" 9 "Z9" "09" None)) seeded "TRIM-002").
  discriminate.
Defined.

(** X12.  A successful entry or issue can be read back: the lookup of
    its code right afterwards answers 200 with the very material the
    call answered with. *)
Theorem lookup_after_successful_call (v : variant) (k : call) (db : Db)
    (s : Z) (m : option Material.t) :
  fst (perform v k db) = Fulfilled (JsonMaterial s m) ->
  fst (getMaterial v (call_code k) (snd (perform v k db))) =
  Fulfilled (JsonMaterial 200 m).
Proof.
  intros Hok. rewrite getMaterial_run. cbn [fst].
  destruct k as [body|body]; cbn [perform call_code] in *.
  - pose proof (entry_cases v body db) as Hc.
    pose proof (current_after_entry v body db) as Hcur.
    destruct (recordEntry v body db) as [o db'] eqn:Hrun. cbn [fst snd] in *.
    subst o. inversion Hc as [|Hv c now m']; subst.
    by rewrite Hcur.
  - pose proof (issue_cases v body db) as Hc.
    pose proof (current_after_issue v body db) as Hcur.
    destruct (recordIssue v body db) as [o db'] eqn:Hrun. cbn [fst snd] in *.
    subst o. inversion Hc as [| | | |e Hv He Hloc Hq now m']; subst.
    by rewrite (Hcur e).
Qed.

Lemma lookup_after_successful_call_witness :
  fst (getMaterial Strict "TRIM-002"
         (snd (perform Strict (Issue (IssueInput.mk "TRIM-002" 20 "b2" "15" None))
                 seeded))) =
  Fulfilled (JsonMaterial 200 (Some (Material.mk "TRIM-002" 30 "B2" "15" 1000))).
Proof.
  apply (lookup_after_successful_call Strict
           (Issue (IssueInput.mk "TRIM-002" 20 "b2" "15" None)) seeded 200
           (Some (Material.mk "TRIM-002" 30 "B2" "15" 1000))).
  reflexivity.
Defined.

(** X13.  Entering a quantity and issuing the same quantity from the same
    rack and bin gives the stock back as it was: over the integer
    columns, on a store without negative quantities and for an entry
    whose new quantity a column holds, neither call throws, the issue
    succeeds on both servers and the quantity is the one from before the
    entry (0 if the material did not exist), at the rack and bin of the
    entry. *)
Theorem entry_then_issue_restores (v : variant) (body : EntryInput.t) (db : Db) :
  valid_entry body ->
  nonnegative db ->
  balance (EntryInput.materialCode body) db + EntryInput.quantity body
    <= IntegerColumns.integer_max ->
  let c := EntryInput.materialCode body in
  let back := IssueInput.mk c (EntryInput.quantity body) (EntryInput.rack body)
                (EntryInput.bin body) (EntryInput.enteredBy body) in
  let db1 := snd (boundedEntry v body db) in
  exists m1 m,
    fst (boundedEntry v body db) =
      Fulfilled (JsonMaterial (created_or_updated (current c db)) (Some m1)) /\
    fst (boundedIssue v back db1) = Fulfilled (JsonMaterial 200 (Some m)) /\
    current c (snd (boundedIssue v back db1)) = Some m /\
    Material.quantity m = balance c db /\
    Material.rack m = EntryInput.rack body /\
    Material.bin m = EntryInput.bin body.
Proof.
  intros Hv Hdb Hmax c back db1.
  assert (0 <= balance c db) as Hbal.
  { unfold balance. destruct (current c db) as [e|] eqn:He; [|done].
    eapply (proj1 (Forall_forall _ _) Hdb). by eapply current_elem_of. }
  destruct (valid_entry_fields body Hv) as (_ & Hpos & _).
  subst db1. rewrite (boundedEntry_agrees v body db Hv Hbal Hmax).
  set (db1 := snd (recordEntry v body db)).
  assert (0 <= balance (IssueInput.materialCode back) db1
            <= IntegerColumns.integer_max) as Hb1.
  { change (0 <= balance (EntryInput.materialCode body)
                   (snd (recordEntry v body db)) <= IntegerColumns.integer_max).
    rewrite (balance_after_entry v body db Hv). unfold c in Hbal. lia. }
  rewrite (boundedIssue_agrees v back db1 Hb1).
  pose proof (current_after_entry v body db Hv) as Hcur. fold c db1 in Hcur.
  set (e1 := entered (current c db) body (clock db)) in *.
  assert (Material.quantity e1 = balance c db + EntryInput.quantity body) as Hq1.
  { subst e1. rewrite entered_quantity. unfold balance.
    destruct (current c db); lia. }
  assert (Material.rack e1 = EntryInput.rack body /\
          Material.bin e1 = EntryInput.bin body) as [Hrack Hbin].
  { subst e1. by destruct (current c db). }
  assert (location_differs e1 back = false) as Hloc.
  { apply location_differs_false. cbn. by rewrite Hrack, Hbin. }
  assert (IssueInput.quantity back <= Material.quantity e1) as Hle.
  { cbn. lia. }
  pose proof (valid_entry_issue body Hv) as Hvi. fold c back in Hvi.
  exists e1, (issued e1 back (clock db1)).
  split; [by rewrite (entry_run v body db Hv)|].
  rewrite (issue_run v back db1 e1 Hvi Hcur (fun _ => Hloc) Hle).
  split; [done|]. split.
  - rewrite <- (issue_run v back db1 e1 Hvi Hcur (fun _ => Hloc) Hle).
    exact (current_after_issue v back db1 e1 Hvi Hcur (fun _ => Hloc) Hle).
  - cbn. rewrite Hq1. repeat split; [lia|done|done].
Qed.

Lemma entry_then_issue_restores_witness :
  let body := EntryInput.mk "TRIM-001" 50 "D4" "12" (Some "asha") in
  let back := IssueInput.mk "TRIM-001" 50 "D4" "12" (Some "asha") in
  let db1 := snd (boundedEntry Strict body seeded) in
  exists m1 m,
    fst (boundedEntry Strict body seeded) =
      Fulfilled (JsonMaterial 200 (Some m1)) /\
    fst (boundedIssue Strict back db1) = Fulfilled (JsonMaterial 200 (Some m)) /\
    current "TRIM-001" (snd (boundedIssue Strict back db1)) = Some m /\
    Material.quantity m = 100 /\
    Material.rack m = "D4" /\
    Material.bin m = "12".
Proof.
  apply (entry_then_issue_restores Strict
           (EntryInput.mk "TRIM-001" 50 "D4" "12" (Some "asha")) seeded).
  - reflexivity.
  - unfold nonnegative. cbn. repeat constructor; discriminate.
  - vm_compute. discriminate.
Defined.

(** ** Seeding, history and the shape of the ledgers *)

Section History.
Implicit Types (v : variant) (db : Db) (c : string).

Lemma seed_skips v db :
  materials db <> [] -> seed v db = (Fulfilled tt, db).
Proof.
  intros Hne.
  assert ((length (DatabaseStorage.orderByLastUpdatedDesc (materials db)) =? 0)%nat
          = false) as Hlen.
  { apply Nat.eqb_neq. unfold DatabaseStorage.orderByLastUpdatedDesc.
    rewrite merge_sort_Permutation. by destruct (materials db). }
  destruct v; cbn; by rewrite Hlen.
Qed.

Lemma seed_fills v db :
  materials db = [] -> materials (snd (seed v db)) <> [].
Proof.
  intros Hnil. destruct v; cbn; rewrite Hnil; cbn; rewrite Hnil; discriminate.
Qed.


End History.

(** X14.  Seeding is idempotent, and it never touches a store that has
    materials: seeding twice is seeding once, and on a non-empty
    materials table the seed changes nothing. *)
Theorem seed_idempotent (v : variant) (db : Db) :
  snd (seed v (snd (seed v db))) = snd (seed v db) /\
  (materials db <> [] -> snd (seed v db) = db).
Proof.
  split.
  - destruct (materials db) as [|m rows] eqn:Hrows.
    + rewrite (seed_skips v (snd (seed v db))); [done|]. by apply seed_fills.
    + rewrite (seed_skips v db); [|by rewrite Hrows]. cbn [snd].
      rewrite (seed_skips v db); [done|by rewrite Hrows].
  - intros Hne. by rewrite seed_skips.
Qed.



(** X16.  Bin transactions are never deleted or rewritten, and logs only
    by clearing them: for every request, the bin transactions from
    before are a prefix of those after; so are the logs, except for the
    request that clears the logs, which leaves none.  Seeding appends
    only, too. *)
Theorem ledgers_append_only (v : variant) (db : Db) :
  (forall r,
     binTransactions db `prefix_of` binTransactions (handle v r db) /\
     (r <> DeleteLogs -> logs db `prefix_of` logs (handle v r db)) /\
     (r = DeleteLogs -> logs (handle v r db) = [])) /\
  binTransactions db `prefix_of` binTransactions (snd (seed v db)) /\
  logs db `prefix_of` logs (snd (seed v db)).
Proof.
  split.
  - intros r. destruct r; cbn [handle].
    + destruct (entry_cases v body db) as [field Hf|Hv c now m]; cbn [snd].
      { by repeat split. }
      split; [|split; [intros _; by apply prefix_app_r|done]].
      cbn. destruct (records_tx v); [by apply prefix_app_r|done].
    + destruct (issue_cases v body db)
        as [field Hf|Hv He|e Hv He Hstrict Hloc|e Hv He Hloc Hq
            |e Hv He Hloc Hq now m]; cbn [snd]; try by repeat split.
      split; [|split; [intros _; by apply prefix_app_r|done]].
      cbn. destruct (records_tx v); [by apply prefix_app_r|done].
    + by repeat split.
    + by repeat split.
    + by repeat split.
    + rewrite getMaterials_reads. by repeat split.
    + by repeat split.
  - destruct v; cbn;
      destruct (length (DatabaseStorage.orderByLastUpdatedDesc (materials db)) =? 0)%nat;
      cbn; split; try done; by apply prefix_app_r.
Qed.

(** ** Every log and bin transaction is well formed *)

Section Sound.
Implicit Types (v : variant) (db : Db).

Lemma entry_sound v body db :
  sound_store db -> sound_store (snd (recordEntry v body db)).
Proof.
  intros (Hq & Hlogs & Htxs).
  split; [by apply entry_nonnegative|].
  destruct (entry_cases v body db) as [field Hf|Hv c now m]; [done|].
  cbn [snd logs binTransactions].
  destruct (valid_entry_fields body Hv) as (_ & Hpos & _).
  assert (EntryInput.quantity body <= Material.quantity m) as Hbal.
  { subst m. rewrite entered_quantity.
    destruct (current c db) as [e|] eqn:He; [|lia].
    assert (0 <= Material.quantity e); [|lia].
    eapply (proj1 (Forall_forall _ _) Hq). by eapply current_elem_of. }
  split.
  - apply Forall_app. split; [done|]. constructor; [|constructor].
    unfold sound_log. cbn. repeat split; lia.
  - destruct (records_tx v); [|done].
    apply Forall_app. split; [done|]. constructor; [|constructor].
    unfold sound_tx. cbn. split; [lia|]. left. repeat split; lia.
Qed.

Lemma issue_sound v body db :
  sound_store db -> sound_store (snd (recordIssue v body db)).
Proof.
  intros (Hq & Hlogs & Htxs).
  split; [by apply issue_nonnegative|].
  destruct (issue_cases v body db)
    as [field Hf|Hv He|e Hv He Hstrict Hloc|e Hv He Hloc Hle|e Hv He Hloc Hle now m];
    try done.
  cbn [snd logs binTransactions].
  destruct (valid_issue_fields body Hv) as (_ & Hpos & _).
  assert (Material.quantity m = Material.quantity e - IssueInput.quantity body)
    as Hm by done.
  split.
  - apply Forall_app. split; [done|]. constructor; [|constructor].
    unfold sound_log. cbn. repeat split; try lia. discriminate.
  - destruct (records_tx v); [|done].
    apply Forall_app. split; [done|]. constructor; [|constructor].
    unfold sound_tx. cbn. split; [lia|]. right. split; [done|lia].
Qed.

Lemma seed_sound v db : sound_store db -> sound_store (snd (seed v db)).
Proof.
  intros (Hq & Hlogs & Htxs). split; [by apply seed_nonnegative|].
  destruct (materials db) as [|m0 rows] eqn:Hrows.
  - destruct v; cbn; rewrite Hrows; cbn; [done|].
    split; [|done]. apply Forall_app. split; [done|].
    constructor; [|constructor]. rewrite Hrows. vm_compute.
    repeat split; intros; discriminate.
  - rewrite seed_skips; [done|by rewrite Hrows].
Qed.

Lemma handle_sound v r db : sound_store db -> sound_store (handle v r db).
Proof.
  intros Hdb. destruct r; cbn [handle].
  - by apply entry_sound.
  - by apply issue_sound.
  - destruct Hdb as (Hq & Hl & Ht). split; [by apply delete_nonnegative|done].
  - destruct Hdb as (Hq & Hl & Ht). split; [by apply reset_nonnegative|done].
  - destruct Hdb as (Hq & Hl & Ht). split; [done|]. split; [constructor|done].
  - by rewrite getMaterials_reads.
  - done.
Qed.

Lemma reachable_sound v db : reachable v db -> sound_store db.
Proof.
  induction 1 as [t0|db Hreach IH|db r Hreach IH|db dt Hdt Hreach IH].
  - repeat split; constructor.
  - by apply seed_sound.
  - by apply handle_sound.
  - exact IH.
Qed.

Lemma sample_run_reachable : reachable Strict sample_run.
Proof.
  unfold sample_run.
  repeat first [ apply reach_request | apply reach_tick; [lia|]
               | apply reach_seed | apply reach_empty ].
Qed.

End Sound.

(** X17.  In every store a server can reach, every log carries a positive
    quantity and a balance that is not negative, and the balance a log
    of an entry carries is at least the quantity entered. *)
Theorem logs_well_formed (v : variant) (db : Db) :
  reachable v db -> Forall sound_log (logs db).
Proof. intros Hreach. by apply (reachable_sound v db). Qed.

Lemma logs_well_formed_witness : Forall sound_log (logs sample_run).
Proof.
  apply (logs_well_formed Strict sample_run). apply sample_run_reachable.
Defined.

(** X18.  In every store a server can reach, every bin transaction
    records either a received quantity or an issued quantity, one of
    them positive and the other 0, with a balance that is not negative
    (and at least the received quantity). *)
Theorem transactions_well_formed (v : variant) (db : Db) :
  reachable v db -> Forall sound_tx (binTransactions db).
Proof. intros Hreach. by apply (reachable_sound v db). Qed.

Lemma transactions_well_formed_witness :
  Forall sound_tx (binTransactions sample_run).
Proof.
  apply (transactions_well_formed Strict sample_run). apply sample_run_reachable.
Defined.

(** ** The transaction history of a material *)

#[global] Instance tx_newer_first_total : Total DatabaseStorage.tx_newer_first.
Proof. intros a b. unfold DatabaseStorage.tx_newer_first. lia. Qed.

(** X19.  On the strict server a successful entry or issue adds exactly
    one transaction to the history listed for its material and none to
    the history of any other material; a history is listed newest first
    and holds transactions of the requested material only. *)
Theorem successful_call_extends_history (k : call) (db : Db) (s : Z)
    (m : option Material.t) :
  fst (perform Strict k db) = Fulfilled (JsonMaterial s m) ->
  let db' := snd (perform Strict k db) in
  (forall c', c' <> call_code k ->
     fst (StrictRoutes.materials_transactions (S:=Db) c' db') =
     fst (StrictRoutes.materials_transactions (S:=Db) c' db)) /\
  exists before after,
    StrictRoutes.materials_transactions (S:=Db) (call_code k) db =
      (Fulfilled before, db) /\
    StrictRoutes.materials_transactions (S:=Db) (call_code k) db' =
      (Fulfilled after, db') /\
    length after = S (length before) /\
    Sorted DatabaseStorage.tx_newer_first after /\
    (forall t, t ∈ after -> BinTransaction.materialCode t = call_code k).
Proof.
  intros Hok db'.
  assert (exists tx, binTransactions db' = binTransactions db ++ [tx] /\
                     BinTransaction.materialCode tx = call_code k)
    as (tx & Htxs & Hcode).
  { subst db'. destruct k as [body|body]; cbn [perform call_code] in *.
    - destruct (entry_cases Strict body db) as [field Hf|Hv c now e];
        [discriminate|]. by eexists.
    - destruct (issue_cases Strict body db)
        as [field Hf|Hv He|e Hv He Hstrict Hloc|e Hv He Hloc Hq
            |e Hv He Hloc Hq now e']; try discriminate. by eexists. }
  unfold StrictRoutes.materials_transactions. cbn.
  unfold DatabaseStorage.getBinTransactions, read. rewrite Htxs.
  split.
  - intros c' Hc. rewrite filter_app, filter_cons_False, filter_nil, app_nil_r;
      [done|congruence].
  - do 2 eexists. split; [reflexivity|]. split; [reflexivity|].
    split; [|split].
    + rewrite !merge_sort_Permutation, filter_app, filter_cons_True by done.
      rewrite length_app. cbn. lia.
    + apply Sorted_merge_sort, _.
    + intros t Ht. rewrite merge_sort_Permutation in Ht.
      by apply list_elem_of_filter in Ht as [Ht _].
Qed.

Lemma successful_call_extends_history_witness :
  let k := Issue (IssueInput.mk "TRIM-001" 30 "A1" "01" None) in
  let db' := snd (perform Strict k seeded) in
  (forall c', c' <> "TRIM-001" ->
     fst (StrictRoutes.materials_transactions (S:=Db) c' db') =
     fst (StrictRoutes.materials_transactions (S:=Db) c' seeded)) /\
  exists before after,
    StrictRoutes.materials_transactions (S:=Db) "TRIM-001" seeded =
      (Fulfilled before, seeded) /\
    StrictRoutes.materials_transactions (S:=Db) "TRIM-001" db' =
      (Fulfilled after, db') /\
    length after = S (length before) /\
    Sorted DatabaseStorage.tx_newer_first after /\
    (forall t, t ∈ after -> BinTransaction.materialCode t = "TRIM-001").
Proof.
  apply (successful_call_extends_history
           (Issue (IssueInput.mk "TRIM-001" 30 "A1" "01" None)) seeded 200
           (Some (Material.mk "TRIM-001" 70 "A1" "01" 1000))).
  reflexivity.
Defined.

(** ** Further checks on small stores *)

Lemma codes_stay_unique_witness : unique_codes sample_run.
Proof. apply (codes_stay_unique Strict sample_run). apply sample_run_reachable. Defined.

Lemma getMaterials_all_witness :
  exists found,
    DatabaseStorage.getMaterials (Some "") seeded = (Fulfilled found, seeded) /\
    found ≡ₚ materials seeded /\
    Sorted DatabaseStorage.newer_first found.
Proof. apply (getMaterials_all (Some "") seeded). by right. Defined.

(** X5.  Clearing the logs always answers 200 and empties the log table
    only: the next listing of logs is empty and the dashboard, taken
    right afterwards, reports no entry and no issue for today and no
    recent log, while the materials, their number on the dashboard and
    the bin transactions are the ones from before. *)
Theorem clear_then_list_logs (startOfDay : Z -> Z) (v : variant) (db : Db) :
  let db' := snd (clearAllLogs v db) in
  fst (clearAllLogs v db) = Fulfilled (JsonMessage 200 "Logs cleared") /\
  listLogs v db' = (Fulfilled [], db') /\
  materials db' = materials db /\
  binTransactions db' = binTransactions db /\
  exists before after,
    Dashboard.getDashboardStats startOfDay db = (Fulfilled before, db) /\
    Dashboard.getDashboardStats startOfDay db' = (Fulfilled after, db') /\
    DashboardStats.enteredToday after = 0%nat /\
    DashboardStats.issuedToday after = 0%nat /\
    DashboardStats.recentLogs after = [] /\
    DashboardStats.totalMaterials after = DashboardStats.totalMaterials before.
Proof.
  rewrite clearAllLogs_run. cbn [fst snd].
  split; [done|]. split; [by destruct v|]. split; [done|]. split; [done|].
  do 2 eexists. rewrite !getDashboardStats_run. by repeat split.
Qed.

(** X23.  Over the integer columns, on a store whose quantities lie
    between 0 and the largest integer a column holds, the entry and issue
    handlers answer every call whose new quantity, for a valid entry,
    also fits: no store statement is refused, the branch that reads the
    quantity of an undefined material is never taken, and the answer is
    the one over unbounded columns. *)
Theorem calls_always_answered (v : variant) (k : call) (db : Db) :
  in_range db ->
  entry_fits k db ->
  exists r,
    boundedPerform v k db = perform v k db /\
    fst (boundedPerform v k db) = Fulfilled r.
Proof.
  intros Hdb Hfit.
  assert (forall c, 0 <= balance c db <= IntegerColumns.integer_max) as Hbal.
  { intros c. unfold balance. destruct (current c db) as [e|] eqn:He.
    - eapply (proj1 (Forall_forall _ _) Hdb). by eapply current_elem_of.
    - unfold IntegerColumns.integer_max. lia. }
  destruct k as [body|body]; cbn [perform boundedPerform entry_fits] in *.
  - destruct (parse_entry body) as [field|body'] eqn:Hp.
    + rewrite (boundedEntry_invalid v body db field Hp),
        (entry_invalid v body db field Hp). by eexists.
    + assert (valid_entry body) as Hv.
      { unfold valid_entry. rewrite Hp. f_equal.
        unfold parse_entry in Hp. by destruct (check_fields _ _ _ _); simplify_eq. }
      rewrite (boundedEntry_agrees v body db Hv) by (apply Hbal || by apply Hfit).
      destruct (entry_cases v body db); by eexists.
  - rewrite (boundedIssue_agrees v body db) by apply Hbal.
    destruct (issue_cases v body db); by eexists.
Qed.

Lemma calls_always_answered_witness :
  exists r,
    boundedPerform Strict (Entry (EntryInput.mk "TRIM-001" 50 "A1" "01" None)) seeded =
      perform Strict (Entry (EntryInput.mk "TRIM-001" 50 "A1" "01" None)) seeded /\
    fst (boundedPerform Strict
           (Entry (EntryInput.mk "TRIM-001" 50 "A1" "01" None)) seeded) = Fulfilled r.
Proof.
  apply (calls_always_answered Strict
           (Entry (EntryInput.mk "TRIM-001" 50 "A1" "01" None)) seeded).
  - unfold in_range. cbn. repeat constructor; discriminate.
  - intros _. vm_compute. discriminate.
Defined.
